(** * mini_tester: a differential test harness for a shell implementation

    The harness feeds every command of a JSON test suite to two shells
    (bash as the reference, minishell as the implementation under test),
    captures stdout, stderr and the exit status of both, compares them and
    prints a report.  This file embeds the Go program ([package main]:
    [runCommand], [compareOutput], [generateDiff], [loadTestCases],
    [NewShellTester], [main]) and proves the properties its specification
    states about it.

    Conventions of the embedding.
    - A Go [string] is a sequence of bytes: [String.string].
    - A Go [int] is a 64-bit signed integer: [Z], arithmetic wrapped by
      [wrap64].
    - [map[string]T] is [gmap string T]; the unspecified iteration order of
      [range] over a map is an oracle of the environment ([rangeOrder]).
    - The operating system and the packages the program calls ([os],
      [os/exec], [encoding/json], [diffmatchpatch]) are an environment
      ([Env]) whose answers the program consumes; the program itself is
      written out in full. *)

From Stdlib Require Import ZArith Lia Ascii String.
From stdpp Require Import gmap strings list fin_maps.

Local Open Scope Z_scope.
#[local] Set Warnings "-clear-no-such-hyp".

(** ** Go values *)

Definition byte (n : N) : ascii := Ascii.ascii_of_N n.

Definition bytes (l : list N) : string :=
  foldr (fun n s => String (byte n) s) EmptyString l.

(** The line feed of ["\nexit\n"]. *)
Definition LF : string := bytes [10%N].

(** [int]: two's complement on 64 bits. *)
Definition wrap64 (z : Z) : Z := (z + 2 ^ 63) mod 2 ^ 64 - 2 ^ 63.

Definition int_add (a b : Z) : Z := wrap64 (a + b).
Definition int_sub (a b : Z) : Z := wrap64 (a - b).

(** [len(m)] of a map. *)
Definition len {A} (m : gmap string A) : Z := Z.of_nat (size m).

(** A value or an [error] (only the text of an error is ever used). *)
Inductive result (A : Type) : Type :=
| Ok (a : A)
| Err (msg : string).
Arguments Ok {A} a.
Arguments Err {A} msg.

(** ** strings.TrimSpace

    [strings.TrimSpace] removes the leading and the trailing white space of
    a string, white space being the code points of Unicode's White_Space
    property, read from the UTF-8 bytes of the string.  [whiteSpace] lists
    their encodings. *)

Definition whiteSpace : list (list N) :=
  [ [0x09]; [0x0A]; [0x0B]; [0x0C]; [0x0D]; [0x20];      (* \t \n \v \f \r ' ' *)
    [0xC2; 0x85]; [0xC2; 0xA0];                          (* U+0085, U+00A0 *)
    [0xE1; 0x9A; 0x80];                                  (* U+1680 *)
    [0xE2; 0x80; 0x80]; [0xE2; 0x80; 0x81]; [0xE2; 0x80; 0x82];
    [0xE2; 0x80; 0x83]; [0xE2; 0x80; 0x84]; [0xE2; 0x80; 0x85];
    [0xE2; 0x80; 0x86]; [0xE2; 0x80; 0x87]; [0xE2; 0x80; 0x88];
    [0xE2; 0x80; 0x89]; [0xE2; 0x80; 0x8A];              (* U+2000 .. U+200A *)
    [0xE2; 0x80; 0xA8]; [0xE2; 0x80; 0xA9];              (* U+2028, U+2029 *)
    [0xE2; 0x80; 0xAF]; [0xE2; 0x81; 0x9F];              (* U+202F, U+205F *)
    [0xE3; 0x80; 0x80] ]%N.                              (* U+3000 *)

(** [cutPrefix p l]: [l] without its prefix [p], when it has it. *)
Fixpoint cutPrefix (p l : list ascii) : option (list ascii) :=
  match p, l with
  | [], _ => Some l
  | _ :: _, [] => None
  | a :: p', b :: l' => if Ascii.eqb a b then cutPrefix p' l' else None
  end.

(** One white-space rune cut from the front of [l], trying the encodings
    of [table] in turn. *)
Fixpoint cutSpace (table : list (list ascii)) (l : list ascii)
  : option (list ascii) :=
  match table with
  | [] => None
  | p :: table' =>
      match cutPrefix p l with
      | Some r => Some r
      | None => cutSpace table' l
      end
  end.

(** At most [n] white-space runes cut from the front. *)
Fixpoint trimFront (table : list (list ascii)) (n : nat) (l : list ascii)
  : list ascii :=
  match n with
  | O => l
  | S n' =>
      match cutSpace table l with
      | Some r => trimFront table n' r
      | None => l
      end
  end.

Definition spaceFront : list (list ascii) := map (map byte) whiteSpace.
Definition spaceBack : list (list ascii) := map (@rev ascii) spaceFront.

Definition TrimLeft (l : list ascii) : list ascii :=
  trimFront spaceFront (length l) l.

(** The trailing runes are the leading ones of the reversed string, their
    bytes reversed. *)
Definition TrimRight (l : list ascii) : list ascii :=
  rev (trimFront spaceBack (length l) (rev l)).

Definition TrimSpace (s : string) : string :=
  string_of_list_ascii (TrimRight (TrimLeft (list_ascii_of_string s))).

(** ** The data model of the harness *)

Record TestCase := {
  Command : string;
  Description : string;
  ExpectedOutput : string;
  ExpectedError : string;
  ExpectedCode : Z
}.

Record TestResult := {
  r_Description : string;
  BashOutput : string;
  MinishellOutput : string;
  BashError : string;
  MinishellError : string;
  BashReturnCode : Z;
  MinishellReturnCode : Z;
  OutputMatch : bool;
  ErrorMatch : bool;
  ReturnCodeMatch : bool;
  ExpectedOutputMatch : bool;
  ExpectedErrorMatch : bool;
  ExpectedCodeMatch : bool
}.

Record ShellTester := {
  bashPath : string;
  minishellPath : string
}.

(** The anonymous struct that [main] serialises into the report file. *)
Record Summary := {
  TotalTests : Z;
  PassedTests : Z;
  FailedTests : Z
}.

Record OutputData := {
  o_Summary : Summary;
  o_Results : gmap string TestResult;
  o_Differences : gmap string string
}.

(** ** os/exec: what one subprocess does

    [exec.Cmd] is driven by five calls; a [Subprocess] records how each of
    them ends for one launch of a shell, and what the shell has written to
    the two buffers by the time [Wait] returns. *)

Inductive ProcessState :=
| Exited (code : Z)
| Signaled (sig : Z).

(** [ProcessState.Success] and [ProcessState.ExitCode]. *)
Definition Success (ps : ProcessState) : bool :=
  match ps with
  | Exited c => c =? 0
  | Signaled _ => false
  end.

Definition ExitCode (ps : ProcessState) : Z :=
  match ps with
  | Exited c => c
  | Signaled _ => -1
  end.

(** How the wait on the process ends: the process is reaped in state [ps]
    (the copying of its output possibly having failed), or the wait itself
    fails. *)
Inductive WaitOutcome :=
| Reaped (ps : ProcessState) (copyErr : option string)
| WaitFailed (msg : string).

Record Subprocess := {
  sp_pipe : option string;     (* error of cmd.StdinPipe() *)
  sp_start : option string;    (* error of cmd.Start() *)
  sp_write : option string;    (* error of stdin.Write(..) *)
  sp_close : option string;    (* error of stdin.Close() *)
  sp_wait : WaitOutcome;       (* end of cmd.Wait() *)
  sp_stdout : string;          (* stdout.String() after Wait *)
  sp_stderr : string           (* stderr.String() after Wait *)
}.

(** The [error] values [cmd.Wait] returns. *)
Inductive WaitError :=
| ExitError (ps : ProcessState)
| OtherError (msg : string).

(** [cmd.Wait]: an [*exec.ExitError] when the process did not succeed, else
    the error of the output copying, else nil. *)
Definition waitError (w : WaitOutcome) : option WaitError :=
  match w with
  | WaitFailed msg => Some (OtherError msg)
  | Reaped ps copyErr =>
      if Success ps then OtherError <$> copyErr else Some (ExitError ps)
  end.

(** The calls made on the subprocess, in the order they are made, each
    with its success. *)
Inductive Event :=
| EvStdinPipe (ok : bool)
| EvStart (ok : bool)
| EvWrite (data : string) (ok : bool)
| EvClose
| EvWait.

Global Instance Event_eq_dec : EqDecision Event.
Proof. solve_decision. Defined.

(** A computation that logs the calls it makes. *)
Definition Run (A : Type) : Type := list Event -> A * list Event.

Global Instance Run_ret : MRet Run := fun A a log => (a, log).
Global Instance Run_bind : MBind Run := fun A B f m log =>
  let '(a, log') := m log in f a log'.

Definition call {A} (ev : Event) (a : A) : Run A :=
  fun log => (a, log ++ [ev]).

Definition isNil {A} (e : option A) : bool :=
  match e with None => true | Some _ => false end.

Definition cmd_StdinPipe (sp : Subprocess) : Run (option string) :=
  call (EvStdinPipe (isNil (sp_pipe sp))) (sp_pipe sp).
Definition cmd_Start (sp : Subprocess) : Run (option string) :=
  call (EvStart (isNil (sp_start sp))) (sp_start sp).
Definition stdin_Write (sp : Subprocess) (data : string)
  : Run (option string) :=
  call (EvWrite data (isNil (sp_write sp))) (sp_write sp).
Definition stdin_Close (sp : Subprocess) : Run (option string) :=
  call EvClose (sp_close sp).
Definition cmd_Wait (sp : Subprocess) : Run (option WaitError) :=
  call EvWait (waitError (sp_wait sp)).

(** The exit code [runCommand] draws from the error of [cmd.Wait]:
    [exitCode := 0], replaced only under [errors.As(err, &exitErr)]. *)
Definition exitCodeOf (err : option WaitError) : Z :=
  match err with
  | Some (ExitError ps) => ExitCode ps
  | Some (OtherError _) => 0
  | None => 0
  end.

(** What [runCommand] writes to the shell. *)
Definition stdinData (command : string) : string :=
  command +:+ LF +:+ "exit" +:+ LF.

(** The body of [runCommand] on the launched subprocess [sp]. *)
Definition runCommandOn (sp : Subprocess) (command : string)
  : Run (string * string * Z) :=
  err ← cmd_StdinPipe sp;
  match err with
  | Some e => mret (EmptyString, e, 1)
  | None =>
      err ← cmd_Start sp;
      match err with
      | Some e => mret (EmptyString, e, 1)
      | None =>
          err ← stdin_Write sp (stdinData command);
          match err with
          | Some e => mret (EmptyString, e, 1)
          | None =>
              _ ← stdin_Close sp;
              err ← cmd_Wait sp;
              let exitCode := exitCodeOf err in
              mret (TrimSpace (sp_stdout sp), TrimSpace (sp_stderr sp),
                    exitCode)
          end
      end
  end.

(** ** The environment of the program *)

(** [os.Stat]: only [os.IsNotExist] of its error is looked at. *)
Inductive StatResult :=
| StatOk
| StatNotExist
| StatFailed (msg : string).

(** The operating system in state [OS] and the library calls of the
    program.  [exec_Command os path input] is the subprocess that launching
    [path] and feeding it [input] gives in state [os], with the state it
    leaves.  [rangeOrder site os m] is the order in which the [range] loop
    at [site] visits the map [m]: some enumeration of its entries. *)
Class Env (OS : Type) := {
  os_ReadFile : OS -> string -> result string;
  json_Unmarshal : string -> result (list TestCase);
  os_Stat : OS -> string -> StatResult;
  exec_Command : OS -> string -> string -> Subprocess * OS;
  diff_PrettyText : string -> string -> string;
  json_MarshalIndent : OutputData -> result string;
  os_WriteFile : OS -> string -> string -> option string * OS;
  rangeOrder : forall {A}, nat -> OS -> gmap string A -> list (string * A);
  rangeOrder_perm : forall A site os (m : gmap string A),
    rangeOrder site os m ≡ₚ map_to_list m
}.

(** ** package flag

    [flag.Parse] over the four string flags of [main], with the default
    error handling [flag.ExitOnError]: a malformed command line ends the
    process with status 2, [-h] and [-help] with status 0. *)

Record Flags := {
  f_bash : string;
  f_minishell : string;
  f_tests : string;
  f_output : string
}.

Definition defaultFlags : Flags :=
  {| f_bash := "/bin/bash"; f_minishell := "./minishell";
     f_tests := "test_cases.json"; f_output := EmptyString |}.

Inductive FlagOutcome :=
| Parsed (fl : Flags)
| FlagHelp
| FlagError.

Definition setFlag (fl : Flags) (name value : string) : option Flags :=
  if String.eqb name "bash" then
    Some {| f_bash := value; f_minishell := f_minishell fl;
            f_tests := f_tests fl; f_output := f_output fl |}
  else if String.eqb name "minishell" then
    Some {| f_bash := f_bash fl; f_minishell := value;
            f_tests := f_tests fl; f_output := f_output fl |}
  else if String.eqb name "tests" then
    Some {| f_bash := f_bash fl; f_minishell := f_minishell fl;
            f_tests := value; f_output := f_output fl |}
  else if String.eqb name "output" then
    Some {| f_bash := f_bash fl; f_minishell := f_minishell fl;
            f_tests := f_tests fl; f_output := value |}
  else None.

(** [name] cut at its first ['='], which cannot be its first byte. *)
Fixpoint cutAtEq (s : string) : option (string * string) :=
  match s with
  | EmptyString => None
  | String c r =>
      if Ascii.eqb c "=" then Some (EmptyString, r)
      else match cutAtEq r with
           | Some (a, v) => Some (String c a, v)
           | None => None
           end
  end.

Definition splitValue (name : string) : string * option string :=
  match name with
  | EmptyString => (name, None)
  | String c r =>
      match cutAtEq r with
      | Some (a, v) => (String c a, Some v)
      | None => (name, None)
      end
  end.

(** The text of the flag in argument [s]: [None] when [s] ends the flags
    (not a flag, or ["--"]), else the name with its dashes removed. *)
Definition flagText (s : string) : option string :=
  match s with
  | String "-" (String "-" EmptyString) => None
  | String "-" (String "-" name) => Some name
  | String "-" (String c name) => Some (String c name)
  | _ => None
  end.

Definition badSyntax (name : string) : bool :=
  match name with
  | EmptyString => true
  | String c _ => Ascii.eqb c "-" || Ascii.eqb c "="
  end.

(** The loop of [FlagSet.Parse]; every turn consumes an argument. *)
Fixpoint parseArgs (fuel : nat) (fl : Flags) (args : list string)
  : FlagOutcome :=
  match fuel, args with
  | _, [] => Parsed fl
  | O, _ => Parsed fl
  | S fuel', s :: rest =>
      match flagText s with
      | None => Parsed fl
      | Some text =>
          if badSyntax text then FlagError
          else
            let '(name, value) := splitValue text in
            match setFlag fl name EmptyString with
            | None =>
                if String.eqb name "help" || String.eqb name "h"
                then FlagHelp else FlagError
            | Some _ =>
                match value, rest with
                | Some v, _ =>
                    match setFlag fl name v with
                    | Some fl' => parseArgs fuel' fl' rest
                    | None => FlagError
                    end
                | None, v :: rest' =>
                    match setFlag fl name v with
                    | Some fl' => parseArgs fuel' fl' rest'
                    | None => FlagError
                    end
                | None, [] => FlagError
                end
            end
      end
  end.

Definition flag_Parse (args : list string) : FlagOutcome :=
  parseArgs (length args) defaultFlags args.

(** ** The program *)

(** What the program prints on standard output, one item for each
    [Printf]/[Println], with the arguments of its format. *)
Inductive Printed :=
| PSummary (passed total : Z)   (* "\nTest Summary (%d/%d passed):\n" *)
| PRule                         (* strings.Repeat("=", 50) *)
| PTest (description : string)  (* "\nTest: %s\n" *)
| PCommand (cmd : string)       (* "Command: %s\n" *)
| PStatus (status : string)     (* "Status: %s\n" *)
| PDiffHeader                   (* "\nDetailed Differences:\n" *)
| PDifferences (diff : string)  (* "\nDifferences detected:\n%s\n" *)
| PSaved (path : string).       (* "\nDetailed results saved to %s\n" *)

Global Instance Printed_eq_dec : EqDecision Printed.
Proof. solve_decision. Defined.

(** What [main] has computed once the tests have run: the two maps, the
    two counters, and the state the runs have left. *)
Record Session (OS : Type) := {
  results : gmap string TestResult;
  differences : gmap string string;
  totalTests : Z;
  passedTests : Z;
  after : OS
}.
Arguments results {OS} _.
Arguments differences {OS} _.
Arguments totalTests {OS} _.
Arguments passedTests {OS} _.
Arguments after {OS} _.

(** The end of a run of [main]: the exit status of the process, what it
    printed on stdout and (itself) on stderr, what it computed if it got
    as far as running the tests, and the state it leaves. *)
Record Outcome (OS : Type) := {
  exitStatus : Z;
  stdout : list Printed;
  stderr : list string;
  session : option (Session OS);
  world : OS
}.
Arguments exitStatus {OS} _.
Arguments stdout {OS} _.
Arguments stderr {OS} _.
Arguments session {OS} _.
Arguments world {OS} _.

(** The zero value of [TestResult], which [results[cmd]] gives for an
    absent key. *)
Definition zeroResult : TestResult :=
  {| r_Description := EmptyString; BashOutput := EmptyString; MinishellOutput := EmptyString;
     BashError := EmptyString; MinishellError := EmptyString;
     BashReturnCode := 0; MinishellReturnCode := 0;
     OutputMatch := false; ErrorMatch := false; ReturnCodeMatch := false;
     ExpectedOutputMatch := false; ExpectedErrorMatch := false;
     ExpectedCodeMatch := false |}.

(** The composite literal of [compareOutput]. *)
Definition testResult (tc : TestCase) (bash mini : string * string * Z)
  : TestResult :=
  let '(bashOut, bashErr, bashRC) := bash in
  let '(miniOut, miniErr, miniRC) := mini in
  {| r_Description := Description tc;
     BashOutput := bashOut;
     MinishellOutput := miniOut;
     BashError := bashErr;
     MinishellError := miniErr;
     BashReturnCode := bashRC;
     MinishellReturnCode := miniRC;
     OutputMatch := String.eqb bashOut miniOut;
     ErrorMatch := String.eqb bashErr miniErr;
     ReturnCodeMatch := bashRC =? miniRC;
     ExpectedOutputMatch :=
       String.eqb (ExpectedOutput tc) EmptyString || String.eqb miniOut (ExpectedOutput tc);
     ExpectedErrorMatch :=
       String.eqb (ExpectedError tc) EmptyString || String.eqb miniErr (ExpectedError tc);
     ExpectedCodeMatch :=
       (ExpectedCode tc =? 0) || (miniRC =? ExpectedCode tc) |}.

(** The condition of the counting loop of [main]. *)
Definition passed (r : TestResult) : bool :=
  OutputMatch r && ErrorMatch r && ReturnCodeMatch r.

(** The condition of [generateDiff] and of the status line. *)
Definition mismatch (r : TestResult) : bool :=
  negb (OutputMatch r) || negb (ErrorMatch r) || negb (ReturnCodeMatch r).

Definition status (r : TestResult) : string :=
  if mismatch r then "FAIL" else "PASS".

(** [passedTests] after the counting loop over the results in the order
    [rs]. *)
Definition countPassed (rs : list TestResult) : Z :=
  foldl (fun n r => if passed r then int_add n 1 else n) 0 rs.

Section Program.
Context {OS : Type} {E : Env OS}.

Definition NewShellTester (os : OS) (bashPath minishellPath : string)
  : result ShellTester :=
  match os_Stat os bashPath with
  | StatNotExist => Err ("bash executable not found at " +:+ bashPath)
  | _ =>
      match os_Stat os minishellPath with
      | StatNotExist =>
          Err ("minishell executable not found at " +:+ minishellPath)
      | _ => Ok {| bashPath := bashPath; minishellPath := minishellPath |}
      end
  end.

(** [runCommand] with the log of the calls it made on the subprocess. *)
Definition runCommandLog (os : OS) (shellPath command : string)
  : (string * string * Z) * list Event * OS :=
  let '(sp, os') := exec_Command os shellPath (stdinData command) in
  (runCommandOn sp command [], os').

Definition runCommand (os : OS) (shellPath command : string)
  : (string * string * Z) * OS :=
  let '(res, _, os') := runCommandLog os shellPath command in (res, os').

(** The body of the loop of [compareOutput]: the two runs of one test case
    and the result made of them. *)
Definition runTest (st : ShellTester) (os : OS) (tc : TestCase)
  : TestResult * OS :=
  let '(bash, os1) := runCommand os (bashPath st) (Command tc) in
  let '(mini, os2) := runCommand os1 (minishellPath st) (Command tc) in
  (testResult tc bash mini, os2).

Definition compareStep (st : ShellTester)
  (acc : gmap string TestResult * OS) (tc : TestCase)
  : gmap string TestResult * OS :=
  let '(r, os') := runTest st acc.2 tc in
  (<[Command tc := r]> acc.1, os').

Definition compareOutput (st : ShellTester) (os : OS)
  (testCases : list TestCase) : gmap string TestResult * OS :=
  foldl (compareStep st) (∅, os) testCases.

Definition generateDiff (st : ShellTester) (os : OS)
  (results : gmap string TestResult) : gmap string string :=
  foldl (fun differences '(cmd, result) =>
           if mismatch result
           then <[cmd := diff_PrettyText (BashOutput result)
                           (MinishellOutput result)]> differences
           else differences)
        ∅ (rangeOrder 0 os results).

(** The entry of the differences map that a result calls for. *)
Definition diffOf (r : TestResult) : option string :=
  if mismatch r
  then Some (diff_PrettyText (BashOutput r) (MinishellOutput r))
  else None.

Definition loadTestCases (os : OS) (filepath : string)
  : result (list TestCase) :=
  match os_ReadFile os filepath with
  | Err e => Err ("error reading file: " +:+ e)
  | Ok data =>
      match json_Unmarshal data with
      | Err e => Err ("error parsing JSON: " +:+ e)
      | Ok tests => Ok tests
      end
  end.

(** [main], "Run tests" and "Calculate statistics". *)
Definition runTests (tester : ShellTester) (os : OS)
  (testCases : list TestCase) : Session OS :=
  let '(results, os1) := compareOutput tester os testCases in
  let differences := generateDiff tester os1 results in
  let totalTests := len results in
  let passedTests := countPassed (snd <$> rangeOrder 1 os1 results) in
  {| results := results; differences := differences;
     totalTests := totalTests; passedTests := passedTests; after := os1 |}.

(** [main], "Print summary" and "Print detailed differences". *)
Definition printReport (s : Session OS) : list Printed :=
  [PSummary (passedTests s) (totalTests s); PRule]
  ++ flat_map (fun '(cmd, result) =>
                 [PTest (r_Description result); PCommand cmd;
                  PStatus (status result)])
       (rangeOrder 2 (after s) (results s))
  ++ (if 0 <? len (differences s)
      then [PDiffHeader; PRule]
           ++ flat_map (fun '(cmd, diff) =>
                          [PTest (r_Description
                                    (default zeroResult (results s !! cmd)));
                           PCommand cmd; PDifferences diff])
                (rangeOrder 3 (after s) (differences s))
      else []).

(** The struct that [main] hands to [json.MarshalIndent]. *)
Definition outputData (s : Session OS) : OutputData :=
  {| o_Summary :=
       {| TotalTests := totalTests s;
          PassedTests := passedTests s;
          FailedTests := int_sub (totalTests s) (passedTests s) |};
     o_Results := results s;
     o_Differences := differences s |}.

Definition exit (code : Z) (out : list Printed) (err : list string)
  (s : option (Session OS)) (os : OS) : Outcome OS :=
  {| exitStatus := code; stdout := out; stderr := err; session := s;
     world := os |}.

Definition main (os : OS) (args : list string) : Outcome OS :=
  match flag_Parse args with
  | FlagError => exit 2 [] [] None os
  | FlagHelp => exit 0 [] [] None os
  | Parsed fl =>
      match loadTestCases os (f_tests fl) with
      | Err e =>
          exit 1 [] ["Error loading test cases: " +:+ e +:+ LF] None os
      | Ok testCases =>
          match NewShellTester os (f_bash fl) (f_minishell fl) with
          | Err e => exit 1 [] ["Error: " +:+ e +:+ LF] None os
          | Ok tester =>
              let s := runTests tester os testCases in
              let out := printReport s in
              if String.eqb (f_output fl) EmptyString
              then exit 0 out [] (Some s) (after s)
              else
                match json_MarshalIndent (outputData s) with
                | Err e =>
                    exit 1 out ["Error creating JSON output: " +:+ e +:+ LF]
                      (Some s) (after s)
                | Ok jsonData =>
                    match os_WriteFile (after s) (f_output fl) jsonData with
                    | (Some e, os2) =>
                        exit 1 out
                          ["Error writing output file: " +:+ e +:+ LF]
                          (Some s) os2
                    | (None, os2) =>
                        exit 0 (out ++ [PSaved (f_output fl)]) []
                          (Some s) os2
                    end
                end
          end
      end
  end.

End Program.

(** ** A scripted environment

    An environment small enough to run the program in: the state counts
    the subprocesses launched so far, the suite, the missing executables,
    the behaviour of every launch and the fate of the report are given by a
    script, and maps are visited in the order of [map_to_list]. *)

Record Script := {
  sc_suite : result (list TestCase);
  sc_missing : list string;
  sc_launch : nat -> string -> string -> Subprocess;
  sc_write : option string
}.

(** A stand-in for the diff library: equal texts are rendered as they are,
    different ones as a deletion followed by an insertion. *)
Definition crudeDiff (a b : string) : string :=
  if String.eqb a b then a
  else bytes [27; 91; 51; 49; 109]%N +:+ a +:+ bytes [27; 91; 48; 109]%N
       +:+ bytes [27; 91; 51; 50; 109]%N +:+ b +:+ bytes [27; 91; 48; 109]%N.

Definition scripted (sc : Script) : Env nat :=
  {| os_ReadFile := fun _ path => Ok path;
     json_Unmarshal := fun _ => sc_suite sc;
     os_Stat := fun _ path =>
       if bool_decide (path ∈ sc_missing sc) then StatNotExist else StatOk;
     exec_Command := fun n path input => (sc_launch sc n path input, S n);
     diff_PrettyText := crudeDiff;
     json_MarshalIndent := fun _ => Ok "{}";
     os_WriteFile := fun n _ _ => (sc_write sc, n);
     rangeOrder := fun A _ _ m => map_to_list m;
     rangeOrder_perm := fun A _ _ m => reflexivity (map_to_list m) |}.

(** A process that starts, reads its input and exits with [code]. *)
Definition proc (out err : string) (code : Z) : Subprocess :=
  {| sp_pipe := None; sp_start := None; sp_write := None; sp_close := None;
     sp_wait := Reaped (Exited code) None;
     sp_stdout := out; sp_stderr := err |}.

Definition tcase (command description : string) : TestCase :=
  {| Command := command; Description := description;
     ExpectedOutput := EmptyString; ExpectedError := EmptyString;
     ExpectedCode := 0 |}.

(** The scenario of the specification: [exit 3] exits with 3 in bash and
    with 0 in the shell under test, neither printing anything. *)
Definition exit3Script : Script :=
  {| sc_suite := Ok [tcase "exit 3" "exit status"];
     sc_missing := [];
     sc_launch := fun _ path _ =>
       if String.eqb path "/bin/bash"
       then proc EmptyString EmptyString 3
       else proc EmptyString EmptyString 0;
     sc_write := None |}.

Definition exit3Env : Env nat := scripted exit3Script.

(** A suite of three test cases, the first two with the same command.  Both
    shells greet, bash with a final line feed and the shell under test with
    blanks around the word; they disagree on the status of [exit 3]. *)
Definition hello : string := "hello".

Definition demoSuite : list TestCase :=
  [ tcase "echo hello" "greeting";
    tcase "echo hello" "greeting, again";
    tcase "exit 3" "exit status" ].

Definition demoLaunch (n : nat) (path input : string) : Subprocess :=
  let bash := String.eqb path "/bin/bash" in
  if String.eqb input (stdinData "echo hello") then
    if bash then proc (hello +:+ LF) EmptyString 0
    else proc (" " +:+ hello +:+ "  ") EmptyString 0
  else if String.eqb input (stdinData "exit 3") then
    if bash then proc EmptyString EmptyString 3
    else proc EmptyString EmptyString 0
  else proc EmptyString EmptyString 0.

Definition demoScript : Script :=
  {| sc_suite := Ok demoSuite; sc_missing := [];
     sc_launch := demoLaunch; sc_write := None |}.

Definition demoEnv : Env nat := scripted demoScript.

Definition demoTester : ShellTester :=
  {| bashPath := "/bin/bash"; minishellPath := "./minishell" |}.

(** A shell that is gone before the harness writes to it: the write ends
    with EPIPE. *)
Definition brokenPipe : Subprocess :=
  {| sp_pipe := None; sp_start := None;
     sp_write := Some "write |1: broken pipe";
     sp_close := None; sp_wait := Reaped (Exited 0) None;
     sp_stdout := EmptyString; sp_stderr := EmptyString |}.

Definition brokenEnv : Env nat :=
  scripted {| sc_suite := Ok demoSuite; sc_missing := [];
              sc_launch := fun _ _ _ => brokenPipe; sc_write := None |}.

(** A shell whose exit cannot be awaited: the wait itself fails. *)
Definition unawaited : Subprocess :=
  {| sp_pipe := None; sp_start := None; sp_write := None; sp_close := None;
     sp_wait := WaitFailed "wait: no child processes";
     sp_stdout := hello +:+ LF; sp_stderr := EmptyString |}.

Definition unawaitedEnv : Env nat :=
  scripted {| sc_suite := Ok demoSuite; sc_missing := [];
              sc_launch := fun _ _ _ => unawaited; sc_write := None |}.

(** The shells of [demoEnv] on another day: the suite does not load, a file
    is missing and the disk is full. *)
Definition otherEnv : Env nat :=
  scripted {| sc_suite := Err "unexpected end of JSON input";
              sc_missing := ["/bin/sh"];
              sc_launch := demoLaunch; sc_write := Some "disk full" |}.

Definition demoSession : Session nat :=
  runTests (E:=demoEnv) demoTester 0%nat demoSuite.

Definition exit3Case : TestCase := tcase "exit 3" "exit status".

Definition exit3Session : Session nat :=
  runTests (E:=exit3Env) demoTester 0%nat [exit3Case].

Definition exit3Result : TestResult :=
  testResult exit3Case (EmptyString, EmptyString, 3)
    (EmptyString, EmptyString, 0).

(** A test case that states the output it expects, line feed included. *)
Definition expectingCase : TestCase :=
  {| Command := "echo hello"; Description := "greeting, checked";
     ExpectedOutput := hello +:+ LF; ExpectedError := EmptyString;
     ExpectedCode := 0 |}.

(** A shell that is killed by a signal after it has read its input. *)
Definition crashed : Subprocess :=
  {| sp_pipe := None; sp_start := None; sp_write := None; sp_close := None;
     sp_wait := Reaped (Signaled 11) None;
     sp_stdout := hello +:+ LF; sp_stderr := EmptyString |}.

Definition crashedEnv : Env nat :=
  scripted {| sc_suite := Ok demoSuite; sc_missing := [];
              sc_launch := fun _ _ _ => crashed; sc_write := None |}.

(** The environment of [demoEnv] with no bash at its default path. *)
Definition noBashEnv : Env nat :=
  scripted {| sc_suite := Ok demoSuite; sc_missing := ["/bin/bash"];
              sc_launch := demoLaunch; sc_write := None |}.

(** The environment of [demoEnv] with an empty suite. *)
Definition emptyEnv : Env nat :=
  scripted {| sc_suite := Ok []; sc_missing := [];
              sc_launch := demoLaunch; sc_write := None |}.

(** The environment of [demoEnv] where no file can be read and the
    executables cannot be examined. *)
Definition deniedEnv : Env nat :=
  {| os_ReadFile := fun _ _ => Err "permission denied";
     json_Unmarshal := json_Unmarshal (Env:=demoEnv);
     os_Stat := fun _ _ => StatFailed "permission denied";
     exec_Command := exec_Command (Env:=demoEnv);
     diff_PrettyText := crudeDiff;
     json_MarshalIndent := json_MarshalIndent (Env:=demoEnv);
     os_WriteFile := os_WriteFile (Env:=demoEnv);
     rangeOrder := fun A _ _ m => map_to_list m;
     rangeOrder_perm := fun A _ _ m => reflexivity (map_to_list m) |}.

(** The environment of [demoEnv] where the executables cannot be
    examined, the suite being readable. *)
Definition unexaminedEnv : Env nat :=
  {| os_ReadFile := os_ReadFile (Env:=demoEnv);
     json_Unmarshal := json_Unmarshal (Env:=demoEnv);
     os_Stat := fun _ _ => StatFailed "permission denied";
     exec_Command := exec_Command (Env:=demoEnv);
     diff_PrettyText := crudeDiff;
     json_MarshalIndent := json_MarshalIndent (Env:=demoEnv);
     os_WriteFile := os_WriteFile (Env:=demoEnv);
     rangeOrder := fun A _ _ m => map_to_list m;
     rangeOrder_perm := fun A _ _ m => reflexivity (map_to_list m) |}.

(** Two shells that print the greeting, bash alone ending it with a line
    feed. *)
Definition newlineEnv : Env nat :=
  scripted {| sc_suite := Ok demoSuite; sc_missing := [];
              sc_launch := fun _ path _ =>
                if String.eqb path "/bin/bash"
                then proc (hello +:+ LF) EmptyString 0
                else proc hello EmptyString 0;
              sc_write := None |}.

(** The error that ends a launch before the output is captured, if any:
    that of the first of the three calls that fails. *)
Definition launchError (sp : Subprocess) : option string :=
  match sp_pipe sp with
  | Some e => Some e
  | None => match sp_start sp with
            | Some e => Some e
            | None => sp_write sp
            end
  end.

(** The status lines among what is printed, in the order of printing. *)
Definition statusOf (p : Printed) : option string :=
  match p with PStatus s => Some s | _ => None end.

Definition statusLines (out : list Printed) : list string := omap statusOf out.

(** ** Notions used in the statements *)

(** A subprocess was started, according to the log of the calls. *)
Definition started (log : list Event) : Prop := EvStart true ∈ log.

(** The input pipe was closed and then the exit awaited, as the last call
    of the log. *)
Definition closedAndAwaited (log : list Event) : Prop :=
  exists l1 l2, log = l1 ++ [EvClose] ++ l2 ++ [EvWait].

(** The launch gets as far as [cmd.Wait]: the two buffers are captured. *)
Definition captures (sp : Subprocess) : Prop :=
  sp_pipe sp = None /\ sp_start sp = None /\ sp_write sp = None.

(** The six comparisons of a result. *)
Definition matchBooleans (r : TestResult)
  : bool * bool * bool * bool * bool * bool :=
  (OutputMatch r, ErrorMatch r, ReturnCodeMatch r,
   ExpectedOutputMatch r, ExpectedErrorMatch r, ExpectedCodeMatch r).

(** The comparisons of a result are those of the values it holds. *)
Definition consistent (r : TestResult) : Prop :=
  OutputMatch r = String.eqb (BashOutput r) (MinishellOutput r)
  /\ ErrorMatch r = String.eqb (BashError r) (MinishellError r)
  /\ ReturnCodeMatch r = (BashReturnCode r =? MinishellReturnCode r).


(** The number of entries of a result map whose three comparisons all
    hold. *)
Definition passingEntries (m : gmap string TestResult) : nat :=
  length (filter (fun kv => passed kv.2 = true) (map_to_list m)).

(** The lines [block] are printed, one after the other, somewhere in
    [out]. *)
Definition printedBlock (block out : list Printed) : Prop :=
  exists pre post, out = pre ++ block ++ post.

(** No block of the detailed differences is printed for [cmd]. *)
Definition diffSectionOmitted (cmd : string) (out : list Printed) : Prop :=
  forall description diff,
    ~ printedBlock [PTest description; PCommand cmd; PDifferences diff] out.

Section Failures.
Context {OS : Type} {E : Env OS}.

(** The three failures that end [main] with status 1, for the flags [fl]. *)
Definition loadFails (os : OS) (fl : Flags) : Prop :=
  exists e, loadTestCases os (f_tests fl) = Err e.

Definition shellMissing (os : OS) (fl : Flags) : Prop :=
  os_Stat os (f_bash fl) = StatNotExist
  \/ os_Stat os (f_minishell fl) = StatNotExist.

(** A report is asked for, the tests have run, and the report cannot be
    serialised or its file cannot be written. *)
Definition reportFails (os : OS) (fl : Flags) : Prop :=
  f_output fl <> EmptyString
  /\ exists testCases tester,
       loadTestCases os (f_tests fl) = Ok testCases
       /\ NewShellTester os (f_bash fl) (f_minishell fl) = Ok tester
       /\ let s := runTests tester os testCases in
          match json_MarshalIndent (outputData s) with
          | Err _ => True
          | Ok jsonData =>
              (os_WriteFile (after s) (f_output fl) jsonData).1 <> None
          end.

End Failures.

(** * Properties *)

(** ** The integers *)

Lemma wrap64_small z : - 2 ^ 63 <= z < 2 ^ 63 -> wrap64 z = z.
Proof.
  intros Hz. unfold wrap64.
  rewrite Z.mod_small by lia. lia.
Qed.

(** ** strings.TrimSpace *)

Lemma cutPrefix_length p : forall l r,
  cutPrefix p l = Some r -> length l = (length p + length r)%nat.
Proof.
  induction p as [|a p IH]; intros [|b l] r H; simpl in *; simplify_eq;
    try done.
  destruct (Ascii.eqb a b); [|done]. by rewrite (IH _ _ H).
Qed.

(** Cutting a rune shortens the string: the fuel of [trimFront] is never
    short. *)
Lemma cutSpace_shorter table l r :
  Forall (fun p => p <> []) table ->
  cutSpace table l = Some r -> (length r < length l)%nat.
Proof.
  induction 1 as [|p table Hp _ IH]; simpl; [done|].
  destruct (cutPrefix p l) as [r'|] eqn:Hcut; [|done].
  intros [= ->]. apply cutPrefix_length in Hcut.
  destruct p; [done|]. simpl in Hcut. lia.
Qed.

(** A byte [c] that is in no encoding past its first byte, put at the end
    of a string that is not empty, changes no cut. *)
Lemma cutPrefix_snoc c p : forall l,
  c ∉ tail p -> l <> [] ->
  cutPrefix p (l ++ [c]) = (fun r => r ++ [c]) <$> cutPrefix p l.
Proof.
  destruct p as [|a p]; [done|]. simpl. intros l Hc Hl.
  destruct l as [|b l]; [done|]. simpl. clear Hl.
  destruct (Ascii.eqb a b); [|done].
  revert l. induction p as [|a' p IH]; intros l; [done|].
  apply not_elem_of_cons in Hc as [Hne Hc].
  destruct l as [|b' l]; simpl.
  - destruct (Ascii.eqb_spec a' c) as [->|_]; done.
  - destruct (Ascii.eqb a' b'); [by apply IH|done].
Qed.

Lemma cutSpace_snoc c table l :
  Forall (fun p => c ∉ tail p) table -> l <> [] ->
  cutSpace table (l ++ [c]) = (fun r => r ++ [c]) <$> cutSpace table l.
Proof.
  intros Htable Hl. induction Htable as [|p table Hp _ IH]; simpl; [done|].
  rewrite cutPrefix_snoc by done.
  by destruct (cutPrefix p l).
Qed.

Lemma spaceFront_nonempty : Forall (fun p => p <> []) spaceFront.
Proof. repeat constructor; done. Qed.

Lemma spaceFront_LF : Forall (fun p => byte 10 ∉ tail p) spaceFront.
Proof.
  apply Forall_forall. intros p Hp.
  apply (bool_decide_unpack _).
  revert p Hp. apply Forall_forall.
  repeat constructor.
Qed.

(** The leading white space of a string with a line feed put at its end:
    nothing is left when the string is white space, else the line feed
    stays at the end. *)
Lemma trimFront_LF n : forall l,
  (length l <= n)%nat ->
  trimFront spaceFront (S n) (l ++ [byte 10])
  = match trimFront spaceFront n l with
    | [] => []
    | r => r ++ [byte 10]
    end.
Proof.
  induction n as [|n IH]; intros l Hlen.
  - destruct l; [done|simpl in Hlen; lia].
  - destruct l as [|a l]; [done|].
    change (trimFront spaceFront (S (S n)) ((a :: l) ++ [byte 10]))
      with (match cutSpace spaceFront ((a :: l) ++ [byte 10]) with
            | Some r => trimFront spaceFront (S n) r
            | None => (a :: l) ++ [byte 10]
            end).
    change (trimFront spaceFront (S n) (a :: l))
      with (match cutSpace spaceFront (a :: l) with
            | Some r => trimFront spaceFront n r
            | None => a :: l
            end).
    rewrite cutSpace_snoc by (done || apply spaceFront_LF).
    destruct (cutSpace spaceFront (a :: l)) as [r|] eqn:Hcut; [|done].
    simpl. apply IH.
    apply cutSpace_shorter in Hcut; [|apply spaceFront_nonempty].
    simpl in *. lia.
Qed.

Lemma list_ascii_of_string_app a b :
  list_ascii_of_string (a +:+ b)
  = list_ascii_of_string a ++ list_ascii_of_string b.
Proof. induction a as [|c a IH]; [done|]. simpl. by rewrite IH. Qed.

(** A final line feed is trimmed away: what a command prints compares the
    same with and without it. *)
Lemma TrimSpace_LF s : TrimSpace (s +:+ LF) = TrimSpace s.
Proof.
  unfold TrimSpace. f_equal. rewrite list_ascii_of_string_app.
  change (list_ascii_of_string LF) with [byte 10].
  generalize (list_ascii_of_string s). intros l.
  unfold TrimLeft. rewrite length_app, Nat.add_1_r, trimFront_LF by done.
  destruct (trimFront spaceFront (length l) l) as [|a r] eqn:Hr; [done|].
  unfold TrimRight. rewrite length_app, Nat.add_1_r, rev_app_distr.
  reflexivity.
Qed.

(** ** flag.Parse *)

(** The fuel of [flag_Parse] is enough: more changes nothing. *)
Lemma parseArgs_fuel args : forall n fl,
  (length args <= n)%nat ->
  parseArgs n fl args = parseArgs (length args) fl args.
Proof.
  induction args as [args IH] using (induction_ltof1 _ (@length string)).
  unfold ltof in IH.
  intros n fl Hn. destruct args as [|s rest]; [by destruct n|].
  destruct n as [|n]; [simpl in Hn; lia|]. simpl in Hn |- *.
  destruct (flagText s) as [text|]; [|done].
  destruct (badSyntax text); [done|].
  destruct (splitValue text) as [name value].
  destruct (setFlag fl name EmptyString); [|done].
  destruct value as [v|].
  - destruct (setFlag fl name v); [|done].
    apply IH; simpl; lia.
  - destruct rest as [|v rest']; [done|].
    destruct (setFlag fl name v); [|done].
    rewrite (IH rest') by (simpl in *; lia).
    symmetry. apply IH; simpl; lia.
Qed.

(** ** runCommand *)

(** The four ways through [runCommand], with the calls each makes. *)
Lemma runCommandOn_paths sp command :
  runCommandOn sp command [] =
  match sp_pipe sp with
  | Some e => ((EmptyString, e, 1), [EvStdinPipe false])
  | None =>
      match sp_start sp with
      | Some e => ((EmptyString, e, 1), [EvStdinPipe true; EvStart false])
      | None =>
          match sp_write sp with
          | Some e =>
              ((EmptyString, e, 1),
               [EvStdinPipe true; EvStart true;
                EvWrite (stdinData command) false])
          | None =>
              ((TrimSpace (sp_stdout sp), TrimSpace (sp_stderr sp),
                exitCodeOf (waitError (sp_wait sp))),
               [EvStdinPipe true; EvStart true;
                EvWrite (stdinData command) true; EvClose; EvWait])
          end
      end
  end.
Proof.
  unfold runCommandOn, cmd_StdinPipe, cmd_Start, stdin_Write, stdin_Close,
    cmd_Wait, call, mbind, Run_bind, mret, Run_ret.
  destruct (sp_pipe sp), (sp_start sp), (sp_write sp); reflexivity.
Qed.

(** Unless the write to its input fails, a started subprocess has its input
    closed and its exit awaited before [runCommand] returns. *)
Lemma runCommandOn_awaits sp command :
  sp_write sp = None ->
  started (runCommandOn sp command []).2 ->
  closedAndAwaited (runCommandOn sp command []).2.
Proof.
  intros Hw. rewrite runCommandOn_paths, Hw. unfold started.
  destruct (sp_pipe sp), (sp_start sp); simpl; intros Hs.
  - by apply list_elem_of_singleton in Hs.
  - by apply list_elem_of_singleton in Hs.
  - set_solver.
  - by exists [EvStdinPipe true; EvStart true;
               EvWrite (stdinData command) true], [].
Qed.

(** When the write fails, [runCommand] returns with the subprocess started,
    its input open and its exit not awaited. *)
Lemma runCommandOn_write_error sp command e :
  sp_pipe sp = None -> sp_start sp = None -> sp_write sp = Some e ->
  runCommandOn sp command []
  = ((EmptyString, e, 1),
     [EvStdinPipe true; EvStart true; EvWrite (stdinData command) false]).
Proof. intros Hp Hs Hw. by rewrite runCommandOn_paths, Hp, Hs, Hw. Qed.

Section ProgramFacts.
Context {OS : Type} {E : Env OS}.

Lemma runCommand_unfold os shellPath command :
  runCommand os shellPath command =
  let sp := (exec_Command os shellPath (stdinData command)).1 in
  ((runCommandOn sp command []).1,
   (exec_Command os shellPath (stdinData command)).2).
Proof.
  unfold runCommand, runCommandLog.
  destruct (exec_Command os shellPath (stdinData command)) as [sp os'].
  simpl. by destruct (runCommandOn sp command []).
Qed.

(** ** compareOutput *)

Lemma runTest_result st os tc :
  (runTest st os tc).1 =
  testResult tc (runCommand os (bashPath st) (Command tc)).1
    (runCommand (runCommand os (bashPath st) (Command tc)).2
       (minishellPath st) (Command tc)).1.
Proof.
  unfold runTest.
  destruct (runCommand os (bashPath st) (Command tc)) as [b os1]. simpl.
  by destruct (runCommand os1 (minishellPath st) (Command tc)).
Qed.

Lemma compareStep_fst st acc tc :
  (compareStep st acc tc).1 = <[Command tc := (runTest st acc.2 tc).1]> acc.1.
Proof. unfold compareStep. by destruct (runTest st acc.2 tc). Qed.

Lemma compareStep_snd st acc tc :
  (compareStep st acc tc).2 = (runTest st acc.2 tc).2.
Proof. unfold compareStep. by destruct (runTest st acc.2 tc). Qed.

Lemma compareOutput_app st os l1 l2 :
  compareOutput st os (l1 ++ l2) =
  foldl (compareStep st) (compareOutput st os l1) l2.
Proof. unfold compareOutput. apply foldl_app. Qed.

(** The later turns leave alone the commands they do not run. *)
Lemma compareLoop_lookup_other st l : forall acc c,
  c ∉ Command <$> l ->
  (foldl (compareStep st) acc l).1 !! c = acc.1 !! c.
Proof.
  induction l as [|tc l IH]; intros acc c Hc; [done|].
  rewrite fmap_cons, not_elem_of_cons in Hc. destruct Hc as [Hne Hc].
  simpl. rewrite IH by done.
  rewrite compareStep_fst. by rewrite lookup_insert_ne.
Qed.

(** The entry of a command is the result of its last test case. *)
Lemma compareOutput_last st os pre tc post :
  Command tc ∉ Command <$> post ->
  (compareOutput st os (pre ++ tc :: post)).1 !! Command tc =
  Some (runTest st (compareOutput st os pre).2 tc).1.
Proof.
  intros Hlast. rewrite compareOutput_app. simpl.
  rewrite compareLoop_lookup_other by done.
  rewrite compareStep_fst. apply lookup_insert_eq.
Qed.

(** The keys of the result map are the commands of the suite. *)
Lemma compareLoop_dom st l : forall acc,
  dom (foldl (compareStep st) acc l).1
  = dom acc.1 ∪ list_to_set (Command <$> l).
Proof.
  induction l as [|tc l IH]; intros acc; simpl.
  - set_solver.
  - rewrite IH, compareStep_fst, dom_insert_L. set_solver.
Qed.

Lemma compareOutput_dom st os testCases :
  dom (compareOutput st os testCases).1 = list_to_set (Command <$> testCases).
Proof.
  unfold compareOutput. rewrite compareLoop_dom. simpl.
  rewrite dom_empty_L. set_solver.
Qed.

(** Every entry of the result map was made by [runTest] from a test case
    of the suite that has its command. *)
Lemma compareOutput_entry st os testCases c r :
  (compareOutput st os testCases).1 !! c = Some r ->
  exists tc os', tc ∈ testCases /\ Command tc = c /\ r = (runTest st os' tc).1.
Proof.
  induction testCases as [|tc l IH] using rev_ind.
  - unfold compareOutput. simpl. by rewrite lookup_empty.
  - rewrite compareOutput_app. simpl. rewrite compareStep_fst.
    destruct (decide (Command tc = c)) as [<-|Hne].
    + rewrite lookup_insert_eq. intros [= <-].
      exists tc, (compareOutput st os l).2. set_solver.
    + rewrite lookup_insert_ne by done. intros Hr.
      destruct (IH Hr) as (tc' & os' & Hin & Hc & Hres).
      exists tc', os'. set_solver.
Qed.

(** In a list without two entries for a key, the entries of a key are the
    one it has. *)
Lemma filter_key_unique {A} (l : list (string * A)) k v :
  NoDup l.*1 -> (k, v) ∈ l -> filter (fun kv => kv.1 = k) l = [(k, v)].
Proof.
  induction l as [|[k' v'] l IH]; intros Hnd Hin;
    [by apply elem_of_nil in Hin|].
  rewrite fmap_cons in Hnd. apply NoDup_cons in Hnd as [Hk Hnd].
  apply elem_of_cons in Hin as [[= <- <-]|Hin].
  - rewrite filter_cons_True by done. f_equal.
    apply elem_of_nil_inv. intros [k2 v2] [Heq Hin]%list_elem_of_filter.
    simpl in Heq. subst k2. apply Hk.
    apply list_elem_of_fmap. by exists (k, v2).
  - rewrite filter_cons_False; [by apply IH|].
    simpl. intros ->. apply Hk.
    apply list_elem_of_fmap. by exists (k, v).
Qed.

(** ** generateDiff *)

Lemma generateDiff_loop (l : list (string * TestResult)) :
  forall (acc : gmap string string) cmd,
  NoDup l.*1 ->
  foldl (fun differences '(cmd, result) =>
           if mismatch result
           then <[cmd := diff_PrettyText (BashOutput result)
                           (MinishellOutput result)]> differences
           else differences) acc l !! cmd
  = match (list_to_map l : gmap string TestResult) !! cmd ≫= diffOf with
    | Some d => Some d
    | None => acc !! cmd
    end.
Proof.
  induction l as [|[k r] l IH]; intros acc cmd Hnd; simpl.
  - by rewrite lookup_empty.
  - apply NoDup_cons in Hnd as [Hk Hnd]. rewrite IH by done.
    destruct (decide (k = cmd)) as [->|Hne].
    + rewrite lookup_insert_eq.
      rewrite (not_elem_of_list_to_map_1 l cmd) by done. simpl.
      unfold diffOf. destruct (mismatch r); [|done].
      by rewrite lookup_insert_eq.
    + rewrite lookup_insert_ne by done.
      destruct (list_to_map l !! cmd ≫= diffOf); [done|].
      destruct (mismatch r); [|done]. by rewrite lookup_insert_ne.
Qed.

(** The differences map has an entry for exactly the results with a
    mismatch: the diff of the two standard outputs. *)
Lemma generateDiff_lookup st os (results : gmap string TestResult) cmd :
  generateDiff st os results !! cmd = results !! cmd ≫= diffOf.
Proof.
  unfold generateDiff.
  pose proof (rangeOrder_perm _ 0%nat os results) as Hperm.
  assert (NoDup (rangeOrder 0 os results).*1) as Hnd.
  { rewrite Hperm. apply NoDup_fst_map_to_list. }
  rewrite generateDiff_loop by done. rewrite lookup_empty.
  rewrite (list_to_map_proper _ _ Hnd Hperm), list_to_map_to_list.
  by destruct (results !! cmd ≫= diffOf).
Qed.

(** ** The counting loop *)

Lemma countLoop (rs : list TestResult) : forall n,
  0 <= n -> n + Z.of_nat (length rs) < 2 ^ 63 ->
  foldl (fun n r => if passed r then int_add n 1 else n) n rs
  = n + Z.of_nat (length (filter (fun r => passed r = true) rs)).
Proof.
  induction rs as [|r rs IH]; intros n Hn Hlen; simpl in *; [lia|].
  destruct (passed r) eqn:Hr.
  - rewrite filter_cons_True by done.
    unfold int_add. rewrite wrap64_small by lia.
    rewrite IH by lia. simpl. lia.
  - rewrite filter_cons_False by (by rewrite Hr).
    apply IH; lia.
Qed.

Lemma filter_snd_length (l : list (string * TestResult)) :
  length (filter (fun r => passed r = true) l.*2)
  = length (filter (fun kv => passed kv.2 = true) l).
Proof.
  induction l as [|[k r] l IH]; [done|]. rewrite fmap_cons. simpl.
  destruct (decide (passed r = true)).
  - rewrite !filter_cons_True by done. simpl. by rewrite IH.
  - by rewrite !filter_cons_False.
Qed.

(** Whatever the order of the visit, the counter ends at the number of
    passing entries. *)
Lemma countPassed_range site os (m : gmap string TestResult) :
  len m < 2 ^ 63 ->
  countPassed (rangeOrder site os m).*2 = Z.of_nat (passingEntries m).
Proof.
  intros Hlen. pose proof (rangeOrder_perm _ site os m) as Hperm.
  unfold countPassed, passingEntries.
  rewrite countLoop.
  - rewrite filter_snd_length, Hperm. lia.
  - lia.
  - rewrite length_fmap, Hperm, length_map_to_list. unfold len in Hlen. lia.
Qed.

Lemma passingEntries_le (m : gmap string TestResult) :
  (passingEntries m <= size m)%nat.
Proof.
  unfold passingEntries. rewrite <- length_map_to_list.
  apply length_filter.
Qed.

(** ** main *)

Lemma flat_map_block {A} (f : A -> list Printed) (l : list A) x :
  x ∈ l -> printedBlock (f x) (flat_map f l).
Proof.
  intros (l1 & l2 & ->)%list_elem_of_split.
  exists (flat_map f l1), (flat_map f l2).
  by rewrite flat_map_app.
Qed.

Lemma printedBlock_app_l block pre out :
  printedBlock block out -> printedBlock block (pre ++ out).
Proof.
  intros (a & b & ->). exists (pre ++ a), b. by rewrite <- app_assoc.
Qed.

Lemma printedBlock_app_r block out post :
  printedBlock block out -> printedBlock block (out ++ post).
Proof.
  intros (a & b & ->). exists a, (b ++ post). by rewrite <- !app_assoc.
Qed.

(** A run of [main] that gets as far as the tests has parsed its flags,
    loaded the suite and found both shells; it prints the report, followed
    at most by the line on the saved file. *)
Lemma main_session os args s :
  session (main os args) = Some s ->
  exists fl testCases tester,
    flag_Parse args = Parsed fl
    /\ loadTestCases os (f_tests fl) = Ok testCases
    /\ NewShellTester os (f_bash fl) (f_minishell fl) = Ok tester
    /\ s = runTests tester os testCases
    /\ exists tail, stdout (main os args) = printReport s ++ tail.
Proof.
  unfold main. destruct (flag_Parse args) as [fl| |]; [|done..].
  destruct (loadTestCases os (f_tests fl)) as [tcs|e] eqn:Hload; [|done].
  destruct (NewShellTester os (f_bash fl) (f_minishell fl))
    as [tester|e] eqn:Hnew; [|done].
  intros Hs. exists fl, tcs, tester.
  assert (s = runTests tester os tcs) as ->.
  { destruct (String.eqb (f_output fl) EmptyString); [by simplify_eq/=|].
    destruct (json_MarshalIndent _); [|by simplify_eq/=].
    destruct (os_WriteFile _ _ _) as [[e|] os2]; by simplify_eq/=. }
  do 4 (split; [done|]). clear Hs.
  destruct (String.eqb (f_output fl) EmptyString);
    [exists nil; by rewrite app_nil_r|].
  destruct (json_MarshalIndent _); [|exists nil; by rewrite app_nil_r].
  destruct (os_WriteFile _ _ _) as [[e|] os2];
    [exists nil; by rewrite app_nil_r|by eexists].
Qed.

(** [NewShellTester] fails exactly when a shell executable does not
    exist. *)
Lemma NewShellTester_cases os bash mini :
  ((os_Stat os bash = StatNotExist \/ os_Stat os mini = StatNotExist)
   /\ exists e, NewShellTester os bash mini = Err e)
  \/ (~ (os_Stat os bash = StatNotExist \/ os_Stat os mini = StatNotExist)
      /\ NewShellTester os bash mini
         = Ok {| bashPath := bash; minishellPath := mini |}).
Proof.
  unfold NewShellTester.
  destruct (os_Stat os bash) eqn:Hb, (os_Stat os mini) eqn:Hm;
    first [ left; split; [by (left + right)|by eexists]
          | right; split; [by intros [?|?]|done] ].
Qed.

Lemma runTests_results tester os testCases :
  results (runTests tester os testCases)
  = (compareOutput tester os testCases).1.
Proof.
  unfold runTests. by destruct (compareOutput tester os testCases).
Qed.

Lemma runTests_differences tester os testCases :
  let s := runTests tester os testCases in
  differences s = generateDiff tester (after s) (results s).
Proof.
  unfold runTests. by destruct (compareOutput tester os testCases).
Qed.

Lemma runTests_counters tester os testCases :
  let s := runTests tester os testCases in
  totalTests s = len (results s)
  /\ passedTests s = countPassed (rangeOrder 1 (after s) (results s)).*2.
Proof.
  unfold runTests. by destruct (compareOutput tester os testCases).
Qed.

(** The status block of every entry of the result map is printed. *)
Lemma printReport_status (s : Session OS) cmd r :
  results s !! cmd = Some r ->
  printedBlock [PTest (r_Description r); PCommand cmd; PStatus (status r)]
    (printReport s).
Proof.
  intros Hr. unfold printReport.
  apply (printedBlock_app_l _ [_; _]), printedBlock_app_r.
  apply (flat_map_block
           (fun '(cmd, result) =>
              [PTest (r_Description result); PCommand cmd;
               PStatus (status result)]) _ (cmd, r)).
  rewrite (rangeOrder_perm _ 2%nat). by apply elem_of_map_to_list.
Qed.

(** The block of every entry of the differences map is printed. *)
Lemma printReport_differences (s : Session OS) cmd d :
  differences s !! cmd = Some d ->
  printedBlock
    [PTest (r_Description (default zeroResult (results s !! cmd)));
     PCommand cmd; PDifferences d]
    (printReport s).
Proof.
  intros Hd. unfold printReport.
  apply (printedBlock_app_l _ [_; _]), printedBlock_app_l.
  assert ((0 <? len (differences s)) = true) as ->.
  { apply Z.ltb_lt. unfold len.
    assert (size (differences s) ≠ 0%nat); [|lia].
    apply map_size_non_empty_iff. intros Hempty.
    by rewrite Hempty, lookup_empty in Hd. }
  apply (printedBlock_app_l _ [_; _]).
  apply (flat_map_block
           (fun '(cmd, diff) =>
              [PTest (r_Description (default zeroResult (results s !! cmd)));
               PCommand cmd; PDifferences diff]) _ (cmd, d)).
  rewrite (rangeOrder_perm _ 3%nat). by apply elem_of_map_to_list.
Qed.

End ProgramFacts.

(** * The claims of the specification *)

Section Claims.
Context {OS : Type} {E : Env OS}.

Lemma status_PASS r :
  status r = "PASS"
  <-> OutputMatch r = true /\ ErrorMatch r = true /\ ReturnCodeMatch r = true.
Proof.
  unfold status, mismatch.
  destruct (OutputMatch r), (ErrorMatch r), (ReturnCodeMatch r); simpl;
    split; intros H; try done; by destruct H as (? & ? & ?).
Qed.

Lemma testResult_consistent tc bash mini : consistent (testResult tc bash mini).
Proof. destruct bash as [[? ?] ?], mini as [[? ?] ?]. by repeat split. Qed.

Lemma session_consistent os args (s : Session OS) cmd r :
  session (main os args) = Some s ->
  results s !! cmd = Some r -> consistent r.
Proof.
  intros (fl & tcs & tester & _ & _ & _ & -> & _)%main_session.
  rewrite runTests_results.
  intros (tc & os' & _ & _ & ->)%compareOutput_entry.
  rewrite runTest_result. apply testResult_consistent.
Qed.

(** C1. A result is classified PASS exactly when its output, error and
    return-code comparisons all hold; whatever the order in which the map
    is visited, the summary line prints the number of entries of the result
    map with that conjunction, next to the size of the map, and the summary
    of the report holds the same two numbers and their difference as the
    failed count.  (The map has fewer than 2^63 entries, the range of
    [len].) *)
Theorem C1_pass_aggregation os args (s : Session OS) :
  session (main os args) = Some s ->
  len (results s) < 2 ^ 63 ->
  (forall r, status r = "PASS" <->
     OutputMatch r = true /\ ErrorMatch r = true /\ ReturnCodeMatch r = true)
  /\ (forall cmd r, results s !! cmd = Some r ->
        printedBlock
          [PTest (r_Description r); PCommand cmd; PStatus (status r)]
          (stdout (main os args)))
  /\ (exists rest, stdout (main os args)
        = PSummary (Z.of_nat (passingEntries (results s))) (len (results s))
          :: rest)
  /\ o_Summary (outputData s)
     = {| TotalTests := len (results s);
          PassedTests := Z.of_nat (passingEntries (results s));
          FailedTests :=
            len (results s) - Z.of_nat (passingEntries (results s)) |}.
Proof.
  intros Hs Hlen.
  destruct (main_session _ _ _ Hs)
    as (fl & tcs & tester & _ & _ & _ & Hrun & tail & Hout).
  pose proof (runTests_counters tester os tcs) as Hc.
  rewrite <- Hrun in Hc. simpl in Hc. destruct Hc as [Htot Hpass].
  rewrite countPassed_range in Hpass by done.
  pose proof (passingEntries_le (results s)) as Hle.
  split; [apply status_PASS|]. split; [|split].
  - intros cmd r Hr. rewrite Hout.
    by apply printedBlock_app_r, printReport_status.
  - rewrite Hout. unfold printReport. rewrite Hpass, Htot. by eexists.
  - unfold outputData. simpl. rewrite Hpass, Htot. f_equal.
    unfold int_sub, len in *. apply wrap64_small. lia.
Qed.

(** An entry of the result map that holds the same outputs and errors and
    different return codes is reported FAIL, has an entry in the differences
    map and has its block of the detailed differences printed. *)
Lemma code_mismatch_entry os args (s : Session OS) cmd r :
  session (main os args) = Some s ->
  results s !! cmd = Some r ->
  BashOutput r = MinishellOutput r ->
  BashError r = MinishellError r ->
  BashReturnCode r <> MinishellReturnCode r ->
  ReturnCodeMatch r = false
  /\ status r = "FAIL"
  /\ differences s !! cmd
     = Some (diff_PrettyText (BashOutput r) (BashOutput r))
  /\ printedBlock
       [PTest (r_Description r); PCommand cmd;
        PDifferences (diff_PrettyText (BashOutput r) (BashOutput r))]
       (stdout (main os args)).
Proof.
  intros Hs Hr Hout Herr Hrc.
  destruct (session_consistent _ _ _ _ _ Hs Hr) as (_ & _ & Hm).
  assert (ReturnCodeMatch r = false) as Hfalse.
  { rewrite Hm. by apply Z.eqb_neq. }
  assert (mismatch r = true) as Hmis.
  { unfold mismatch. rewrite Hfalse. by rewrite !orb_true_r. }
  destruct (main_session _ _ _ Hs)
    as (fl & tcs & tester & _ & _ & _ & Hrun & tail & Hprinted).
  assert (differences s !! cmd
          = Some (diff_PrettyText (BashOutput r) (BashOutput r))) as Hd.
  { pose proof (runTests_differences tester os tcs) as Hdiff.
    rewrite <- Hrun in Hdiff. simpl in Hdiff.
    rewrite Hdiff, generateDiff_lookup, Hr. simpl.
    unfold diffOf. by rewrite Hmis, <- Hout. }
  split; [done|]. split; [unfold status; by rewrite Hmis|]. split; [done|].
  rewrite Hprinted. apply printedBlock_app_r.
  pose proof (printReport_differences s cmd _ Hd) as Hb.
  by rewrite Hr in Hb.
Qed.

(** A run of [main] whose flags parse, whose suite loads and whose shells
    are found gets as far as the tests. *)
Lemma main_runs_tests os args fl testCases tester :
  flag_Parse args = Parsed fl ->
  loadTestCases os (f_tests fl) = Ok testCases ->
  NewShellTester os (f_bash fl) (f_minishell fl) = Ok tester ->
  session (main os args) = Some (runTests tester os testCases).
Proof.
  intros Hfl Hload Hnew. unfold main. rewrite Hfl, Hload, Hnew.
  destruct (String.eqb (f_output fl) EmptyString); [done|].
  destruct (json_MarshalIndent _); [|done].
  by destruct (os_WriteFile _ _ _) as [[e|] os2].
Qed.

(** C2, amended.  Take a test case that is the last of the suite with its
    command.  When at its turn the two shells give the same trimmed stdout
    and stderr but different exit codes, the return-code comparison of its
    result is false and the result is the entry of its command in the
    result map; the test is reported FAIL; the differences map has an entry
    for its command, what the diff library gives for the common stdout
    against itself; and the block of the detailed differences is printed
    for it. *)
Theorem C2_exit_code_only_mismatch os args fl tester pre tc post :
  flag_Parse args = Parsed fl ->
  loadTestCases os (f_tests fl) = Ok (pre ++ tc :: post) ->
  NewShellTester os (f_bash fl) (f_minishell fl) = Ok tester ->
  Command tc ∉ Command <$> post ->
  let r := (runTest tester (compareOutput tester os pre).2 tc).1 in
  BashOutput r = MinishellOutput r ->
  BashError r = MinishellError r ->
  BashReturnCode r <> MinishellReturnCode r ->
  exists s,
    session (main os args) = Some s
    /\ results s !! Command tc = Some r
    /\ ReturnCodeMatch r = false
    /\ status r = "FAIL"
    /\ differences s !! Command tc
       = Some (diff_PrettyText (BashOutput r) (BashOutput r))
    /\ printedBlock
         [PTest (Description tc); PCommand (Command tc);
          PDifferences (diff_PrettyText (BashOutput r) (BashOutput r))]
         (stdout (main os args)).
Proof.
  intros Hfl Hload Hnew Hlast r Hout Herr Hrc.
  pose proof (main_runs_tests _ _ _ _ _ Hfl Hload Hnew) as Hs.
  exists (runTests tester os (pre ++ tc :: post)).
  assert (results (runTests tester os (pre ++ tc :: post)) !! Command tc
          = Some r) as Hr.
  { rewrite runTests_results. by apply compareOutput_last. }
  assert (r_Description r = Description tc) as Hdesc.
  { unfold r. rewrite runTest_result.
    destruct (runCommand _ (bashPath tester) _) as [[[bo be] bc] os1].
    simpl. by destruct (runCommand os1 _ _) as [[[mo me] mc] os2]. }
  rewrite <- Hdesc.
  destruct (code_mismatch_entry _ _ _ _ _ Hs Hr Hout Herr Hrc)
    as (Hfalse & Hfail & Hdiff & Hblock).
  done.
Qed.

(** C4. A test case with no expected output, no expected error and
    expected code zero gets all three expectation comparisons true,
    whatever the two shells do: in the result made at its turn, in the entry
    stored at its turn, and in the entry of the final map when no later
    test case has its command. *)
Theorem C4_expected_defaults st tc :
  ExpectedOutput tc = EmptyString ->
  ExpectedError tc = EmptyString ->
  ExpectedCode tc = 0 ->
  let unset (r : TestResult) :=
    ExpectedOutputMatch r = true /\ ExpectedErrorMatch r = true
    /\ ExpectedCodeMatch r = true in
  (forall os, unset (runTest st os tc).1)
  /\ (forall acc, exists r,
        (compareStep st acc tc).1 !! Command tc = Some r /\ unset r)
  /\ (forall os pre post, Command tc ∉ Command <$> post ->
        exists r,
          (compareOutput st os (pre ++ tc :: post)).1 !! Command tc = Some r
          /\ unset r).
Proof.
  intros Ho He Hc unset.
  assert (forall os, unset (runTest st os tc).1) as Hturn.
  { intros os. rewrite runTest_result.
    destruct (runCommand os (bashPath st) (Command tc)) as [[[bo be] bc] os1].
    destruct (runCommand _ (minishellPath st) (Command tc))
      as [[[mo me] mc] os2].
    unfold unset. simpl. by rewrite Ho, He, Hc. }
  split; [done|]. split.
  - intros acc. eexists. split; [|apply Hturn].
    rewrite compareStep_fst. apply lookup_insert_eq.
  - intros os pre post Hlast. eexists. split; [|apply Hturn].
    by apply compareOutput_last.
Qed.

(** When both launches capture the output, the output comparison is the
    comparison of the two trimmed buffers. *)
Lemma runTest_OutputMatch st os tc :
  let bash := exec_Command os (bashPath st) (stdinData (Command tc)) in
  let mini := exec_Command bash.2 (minishellPath st) (stdinData (Command tc)) in
  captures bash.1 -> captures mini.1 ->
  OutputMatch (runTest st os tc).1
  = String.eqb (TrimSpace (sp_stdout bash.1)) (TrimSpace (sp_stdout mini.1)).
Proof.
  intros bash mini (Hp1 & Hs1 & Hw1) (Hp2 & Hs2 & Hw2).
  rewrite runTest_result, !runCommand_unfold. simpl.
  fold bash. fold mini.
  by rewrite !runCommandOn_paths, Hp1, Hs1, Hw1, Hp2, Hs2, Hw2.
Qed.

(** X21. When both launches capture the output and the standard output
    of bash is that of the shell under test followed by a line feed, the
    output comparison of the test is true. *)
Lemma runTest_final_newline st os tc :
  let bash := exec_Command os (bashPath st) (stdinData (Command tc)) in
  let mini := exec_Command bash.2 (minishellPath st) (stdinData (Command tc)) in
  captures bash.1 -> captures mini.1 ->
  sp_stdout bash.1 = sp_stdout mini.1 +:+ LF ->
  OutputMatch (runTest st os tc).1 = true.
Proof.
  intros bash mini Hb Hm Hout.
  rewrite runTest_OutputMatch by done. fold bash. fold mini.
  rewrite Hout, TrimSpace_LF. apply String.eqb_refl.
Qed.

(** C5. When both launches of a test case get as far as capturing the
    output and the two captured standard outputs have the same trimmed
    form, the output comparison of the test is true. *)
Theorem C5_trimmed_outputs_match st os tc :
  let bash := exec_Command os (bashPath st) (stdinData (Command tc)) in
  let mini := exec_Command bash.2 (minishellPath st) (stdinData (Command tc)) in
  captures bash.1 -> captures mini.1 ->
  TrimSpace (sp_stdout bash.1) = TrimSpace (sp_stdout mini.1) ->
  OutputMatch (runTest st os tc).1 = true.
Proof.
  intros bash mini Hb Hm Htrim.
  rewrite runTest_OutputMatch by done. fold bash. fold mini.
  rewrite Htrim. apply String.eqb_refl.
Qed.

(** C6. The result map has one entry for every command of the suite.  The
    entry of a command holds the result made at the turn of the last test
    case with that command, and it is the only entry for it. *)
Theorem C6_duplicate_commands st os pre tc post :
  Command tc ∉ Command <$> post ->
  let res := (compareOutput st os (pre ++ tc :: post)).1 in
  res !! Command tc = Some (runTest st (compareOutput st os pre).2 tc).1
  /\ filter (fun kv => kv.1 = Command tc) (map_to_list res)
     = [(Command tc, (runTest st (compareOutput st os pre).2 tc).1)]
  /\ size res = length (remove_dups (Command <$> (pre ++ tc :: post))).
Proof.
  intros Hlast res.
  assert (res !! Command tc
          = Some (runTest st (compareOutput st os pre).2 tc).1) as Hlook
    by by apply compareOutput_last.
  split; [done|]. split.
  - apply filter_key_unique; [apply NoDup_fst_map_to_list|].
    by apply elem_of_map_to_list.
  - rewrite <- (size_dom (D:=gset string)). unfold res.
    rewrite compareOutput_dom.
    rewrite <- (size_list_to_set (C:=gset string) (remove_dups _))
      by apply NoDup_remove_dups.
    f_equal. apply set_eq. intros c.
    by rewrite !elem_of_list_to_set, elem_of_remove_dups.
Qed.

(** C7. When the input pipe cannot be made, the subprocess cannot be
    started or the input cannot be written, [runCommand] returns an empty
    stdout, the text of the error as the error output and the exit code 1;
    when the subprocess gets its input and exits, the exit code returned is
    the one it exited with. *)
Theorem C7_launch_failures os shellPath command :
  let sp := (exec_Command os shellPath (stdinData command)).1 in
  let res := (runCommand os shellPath command).1 in
  (forall e, sp_pipe sp = Some e -> res = (EmptyString, e, 1))
  /\ (forall e, sp_pipe sp = None -> sp_start sp = Some e ->
        res = (EmptyString, e, 1))
  /\ (forall e, sp_pipe sp = None -> sp_start sp = None ->
        sp_write sp = Some e -> res = (EmptyString, e, 1))
  /\ (forall code copyErr, captures sp ->
        sp_wait sp = Reaped (Exited code) copyErr -> res.2 = code).
Proof.
  intros sp res. unfold res. rewrite runCommand_unfold. simpl. fold sp.
  rewrite runCommandOn_paths.
  split; [|split; [|split]].
  - by intros e ->.
  - by intros e -> ->.
  - by intros e -> -> ->.
  - intros code copyErr (-> & -> & ->) Hwait. simpl. rewrite Hwait.
    unfold waitError, Success.
    destruct (Z.eqb_spec code 0) as [->|Hne]; [by destruct copyErr|done].
Qed.

(** C8, amended.  [main] ends with status 2 when its command line does
    not parse and with status 0 when it asks for help.  Otherwise it ends
    with status 1 when the suite cannot be loaded, when a shell executable
    does not exist, or when the report that was asked for cannot be
    serialised or written, and with status 0 in every other case, however
    many tests failed. *)
Theorem C8_exit_status os args :
  match flag_Parse args with
  | FlagError => exitStatus (main os args) = 2
  | FlagHelp => exitStatus (main os args) = 0
  | Parsed fl =>
      (loadFails os fl \/ shellMissing os fl \/ reportFails os fl ->
       exitStatus (main os args) = 1)
      /\ (~ (loadFails os fl \/ shellMissing os fl \/ reportFails os fl) ->
          exitStatus (main os args) = 0)
  end.
Proof.
  unfold main. destruct (flag_Parse args) as [fl| |]; [|done..].
  destruct (loadTestCases os (f_tests fl)) as [tcs|e] eqn:Hload.
  2:{ split; [done|]. intros Hno. destruct Hno. left. by exists e. }
  destruct (NewShellTester_cases os (f_bash fl) (f_minishell fl))
    as [[Hmiss [e Hnew]]|[Hfound Hnew]]; rewrite Hnew.
  { split; [done|]. intros Hno. destruct Hno. by right; left. }
  set (tester := {| bashPath := f_bash fl; minishellPath := f_minishell fl |})
    in *.
  set (s := runTests tester os tcs).
  assert ((loadFails os fl \/ shellMissing os fl \/ reportFails os fl)
          <-> f_output fl <> EmptyString
              /\ match json_MarshalIndent (outputData s) with
                 | Err _ => True
                 | Ok jsonData =>
                     (os_WriteFile (after s) (f_output fl) jsonData).1 <> None
                 end) as ->.
  { unfold loadFails, reportFails. rewrite Hload, Hnew. split.
    - intros [[e He]|[Hm|(Hne & tcs' & t' & H1 & H2 & H3)]]; [done..|].
      by simplify_eq.
    - intros [Hne H]. right; right. split; [done|]. by exists tcs, tester. }
  destruct (String.eqb_spec (f_output fl) EmptyString) as [Hout|Hout].
  { split; [by intros [Hne _]|done]. }
  destruct (json_MarshalIndent (outputData s)) as [data|e].
  2:{ split; [done|]. intros Hno. by destruct Hno. }
  destruct (os_WriteFile (after s) (f_output fl) data) as [[e|] os2]; simpl.
  - split; [done|]. intros Hno. by destruct Hno.
  - split; [|done]. by intros [_ H].
Qed.

(** C10. When the subprocess starts and takes its input but [cmd.Wait]
    ends with an error that is not an exit status, [runCommand] returns the
    trimmed output with the exit code 0, the very result it returns for the
    same output of a process that exited with status 0. *)
Theorem C10_wait_error_exit_code os shellPath command msg :
  let sp := (exec_Command os shellPath (stdinData command)).1 in
  captures sp ->
  waitError (sp_wait sp) = Some (OtherError msg) ->
  (runCommand os shellPath command).1
  = (TrimSpace (sp_stdout sp), TrimSpace (sp_stderr sp), 0)
  /\ (runCommand os shellPath command).1
     = (runCommandOn (proc (sp_stdout sp) (sp_stderr sp) 0) command []).1.
Proof.
  intros sp (Hp & Hs & Hw) Hwait.
  rewrite runCommand_unfold. simpl. fold sp.
  rewrite !runCommandOn_paths, Hp, Hs, Hw, Hwait. by simpl.
Qed.

End Claims.

(** ** Two runs *)

Section TwoRuns.
Context {OS1 OS2 : Type} (E1 : Env OS1) (E2 : Env OS2).

(** When every run of a command gives what [f] says, the loop of
    [compareOutput] is a loop of insertions. *)
Lemma compareLoop_pure {OS} {E : Env OS} st (f : TestCase -> TestResult)
    (l : list TestCase) :
  (forall os tc, tc ∈ l -> (runTest st os tc).1 = f tc) ->
  forall acc,
    (foldl (compareStep st) acc l).1
    = foldl (fun m tc => <[Command tc := f tc]> m) acc.1 l.
Proof.
  induction l as [|tc l IH]; intros Hf acc; [done|]. simpl.
  rewrite IH by (intros; apply Hf; set_solver).
  by rewrite compareStep_fst, Hf by set_solver.
Qed.

(** C9. Two runs of the comparison over the same suite with the same
    tester, in any two environments and states in which each shell answers
    a command of the suite by a fixed function of the command, give every
    test case the same six comparisons, at its turn and in the result
    map. *)
Theorem C9_determinism st (testCases : list TestCase)
    (reference implementation : string -> string * string * Z) :
  (forall os tc, tc ∈ testCases ->
     (runCommand (E:=E1) os (bashPath st) (Command tc)).1
     = reference (Command tc)) ->
  (forall os tc, tc ∈ testCases ->
     (runCommand (E:=E1) os (minishellPath st) (Command tc)).1
     = implementation (Command tc)) ->
  (forall os tc, tc ∈ testCases ->
     (runCommand (E:=E2) os (bashPath st) (Command tc)).1
     = reference (Command tc)) ->
  (forall os tc, tc ∈ testCases ->
     (runCommand (E:=E2) os (minishellPath st) (Command tc)).1
     = implementation (Command tc)) ->
  (forall os1 os2 tc, tc ∈ testCases ->
     matchBooleans (runTest (E:=E1) st os1 tc).1
     = matchBooleans (runTest (E:=E2) st os2 tc).1)
  /\ (forall os1 os2 cmd,
        matchBooleans <$> (compareOutput (E:=E1) st os1 testCases).1 !! cmd
        = matchBooleans <$> (compareOutput (E:=E2) st os2 testCases).1 !! cmd).
Proof.
  intros Hb1 Hm1 Hb2 Hm2.
  set (f := fun tc =>
              testResult tc (reference (Command tc))
                (implementation (Command tc))).
  assert (forall os tc, tc ∈ testCases -> (runTest (E:=E1) st os tc).1 = f tc)
    as H1.
  { intros os tc Hin. by rewrite runTest_result, Hb1, Hm1. }
  assert (forall os tc, tc ∈ testCases -> (runTest (E:=E2) st os tc).1 = f tc)
    as H2.
  { intros os tc Hin. by rewrite runTest_result, Hb2, Hm2. }
  split.
  - intros os1 os2 tc Hin. by rewrite H1, H2.
  - intros os1 os2 cmd. unfold compareOutput.
    by rewrite (compareLoop_pure st f _ H1), (compareLoop_pure st f _ H2).
Qed.

End TwoRuns.

(** * The program run in the scripted environments *)

(** The demo suite: two commands, one of them passing. *)
Lemma C1_witness :
  (exists rest,
     stdout (main (E:=demoEnv) 0%nat []) = PSummary 1 2 :: rest)
  /\ o_Summary (outputData demoSession)
     = {| TotalTests := 2; PassedTests := 1; FailedTests := 1 |}.
Proof.
  destruct (C1_pass_aggregation (E:=demoEnv) 0%nat [] demoSession)
    as (_ & _ & Hsum & Hrep);
    [vm_compute; reflexivity | vm_compute; reflexivity |].
  split; [exact Hsum | exact Hrep].
Defined.

(** C2, as stated, fails: in the scenario of the specification the block
    of the detailed differences is printed for [exit 3]. *)
Lemma C2_counterexample :
  session (main (E:=exit3Env) 0%nat []) = Some exit3Session
  /\ results exit3Session !! "exit 3" = Some exit3Result
  /\ BashOutput exit3Result = MinishellOutput exit3Result
  /\ BashError exit3Result = MinishellError exit3Result
  /\ BashReturnCode exit3Result <> MinishellReturnCode exit3Result
  /\ ~ diffSectionOmitted "exit 3" (stdout (main (E:=exit3Env) 0%nat [])).
Proof.
  do 5 (split; [by vm_compute|]).
  intros Homitted. apply (Homitted "exit status" EmptyString).
  exists [PSummary 0 1; PRule; PTest "exit status"; PCommand "exit 3";
          PStatus "FAIL"; PDiffHeader; PRule], [].
  vm_compute. reflexivity.
Qed.

(** The block printed for [exit 3], with its empty diff. *)
Lemma C2_witness :
  status exit3Result = "FAIL"
  /\ printedBlock
       [PTest "exit status"; PCommand "exit 3"; PDifferences EmptyString]
       (stdout (main (E:=exit3Env) 0%nat [])).
Proof.
  destruct (C2_exit_code_only_mismatch (E:=exit3Env) 0%nat [] defaultFlags
              demoTester [] exit3Case [])
    as (s & _ & _ & _ & Hfail & _ & Hblock);
    [reflexivity | reflexivity | reflexivity
    | apply (bool_decide_unpack _); vm_compute; exact I
    | reflexivity | reflexivity | by vm_compute |].
  split; [exact Hfail | exact Hblock].
Defined.

(** C3, the failing run.  The shell under test is started and the write to
    its input fails: [runCommand] returns the error with exit code 1 after
    three calls, the last of them the write; the input pipe is not closed
    and the exit of the subprocess is not awaited. *)
Lemma C3_write_error_skips_wait :
  let run := runCommandLog (E:=brokenEnv) 0%nat "./minishell" "echo hello" in
  run.1 = ((EmptyString, "write |1: broken pipe", 1),
           [EvStdinPipe true; EvStart true;
            EvWrite (stdinData "echo hello") false])
  /\ started run.1.2
  /\ (EvClose ∉ run.1.2)
  /\ (EvWait ∉ run.1.2)
  /\ ~ closedAndAwaited run.1.2.
Proof.
  assert ((runCommandLog (E:=brokenEnv) 0%nat "./minishell" "echo hello").1
          = ((EmptyString, "write |1: broken pipe", 1),
             [EvStdinPipe true; EvStart true;
              EvWrite (stdinData "echo hello") false])) as Hrun
    by (vm_compute; reflexivity).
  cbv zeta. rewrite Hrun. simpl.
  split; [done|]. split; [unfold started; set_solver|].
  split; [set_solver|]. split; [set_solver|].
  intros (l1 & l2 & Hlog).
  assert (EvWait ∈ l1 ++ [EvClose] ++ l2 ++ [EvWait]) as Hin by set_solver.
  rewrite <- Hlog in Hin. set_solver.
Qed.

(** [exit 3] states no expectation: the shells disagree on it and the
    three expectation comparisons hold all the same. *)
Lemma C4_witness :
  let r := (runTest (E:=demoEnv) demoTester 0%nat exit3Case).1 in
  ReturnCodeMatch r = false
  /\ ExpectedOutputMatch r = true /\ ExpectedErrorMatch r = true
  /\ ExpectedCodeMatch r = true.
Proof.
  split; [vm_compute; reflexivity|].
  exact (proj1 (C4_expected_defaults (E:=demoEnv) demoTester exit3Case
                  eq_refl eq_refl eq_refl) 0%nat).
Defined.

(** The two shells print the greeting with different white space around
    it, and the outputs match. *)
Lemma C5_witness :
  let tc := tcase "echo hello" "greeting" in
  sp_stdout (demoLaunch 0 "/bin/bash" (stdinData (Command tc)))
  <> sp_stdout (demoLaunch 1 "./minishell" (stdinData (Command tc)))
  /\ OutputMatch (runTest (E:=demoEnv) demoTester 0%nat tc).1 = true.
Proof.
  split; [by vm_compute|].
  apply (C5_trimmed_outputs_match (E:=demoEnv) demoTester 0%nat
           (tcase "echo hello" "greeting")).
  - repeat split; reflexivity.
  - repeat split; reflexivity.
  - vm_compute. reflexivity.
Defined.

(** Two test cases run [echo hello]: the map keeps the second. *)
Lemma C6_witness :
  let pre := [tcase "echo hello" "greeting"] in
  let tc := tcase "echo hello" "greeting, again" in
  let post := [exit3Case] in
  let res := (compareOutput (E:=demoEnv) demoTester 0%nat
                (pre ++ tc :: post)).1 in
  r_Description <$> res !! "echo hello" = Some "greeting, again"
  /\ size res = 2%nat.
Proof.
  destruct (C6_duplicate_commands (E:=demoEnv) demoTester 0%nat
              [tcase "echo hello" "greeting"]
              (tcase "echo hello" "greeting, again") [exit3Case])
    as (Hlast & _ & Hsize).
  - apply (bool_decide_unpack _). vm_compute. exact I.
  - cbv zeta. split.
    + etrans; [exact (f_equal (fmap r_Description) Hlast)|].
      vm_compute. reflexivity.
    + etrans; [exact Hsize|]. vm_compute. reflexivity.
Defined.

(** A write that fails, and a shell that exits with status 3. *)
Lemma C7_witness :
  (runCommand (E:=brokenEnv) 0%nat "./minishell" "echo hello").1
  = (EmptyString, "write |1: broken pipe", 1)
  /\ (runCommand (E:=demoEnv) 0%nat "/bin/bash" "exit 3").1.2 = 3.
Proof.
  split.
  - apply (proj1 (proj2 (proj2
             (C7_launch_failures (E:=brokenEnv) 0%nat "./minishell"
                "echo hello")))); reflexivity.
  - apply (proj2 (proj2 (proj2
             (C7_launch_failures (E:=demoEnv) 0%nat "/bin/bash" "exit 3")))
           3 None); [repeat split; reflexivity|].
    vm_compute. reflexivity.
Defined.

(** C8, as stated, fails: the suite loads, both shells exist and no report
    is asked for, whatever the flags, and yet the status is not zero. *)
Lemma C8_counterexample :
  exitStatus (main (E:=demoEnv) 0%nat ["-bogus"]) = 2
  /\ (forall fl, ~ loadFails (E:=demoEnv) 0%nat fl)
  /\ (forall fl, ~ shellMissing (E:=demoEnv) 0%nat fl)
  /\ (forall fl, ~ reportFails (E:=demoEnv) 0%nat fl).
Proof.
  split; [vm_compute; reflexivity|]. split; [|split].
  - intros fl [e He]. discriminate He.
  - intros fl [H|H]; discriminate H.
  - intros fl (_ & tcs & tester & _ & _ & Hrep). simpl in Hrep. by apply Hrep.
Qed.

(** A run that ends well, and a run whose suite does not load. *)
Lemma C8_witness :
  exitStatus (main (E:=demoEnv) 0%nat ["-tests"; "suite.json"]) = 0
  /\ exitStatus (main (E:=otherEnv) 0%nat ["-bash=/bin/sh"]) = 1.
Proof.
  split.
  - pose proof (C8_exit_status (E:=demoEnv) 0%nat ["-tests"; "suite.json"])
      as [_ Hzero].
    apply Hzero. intros [[e He]|[[H|H]|(Hne & _)]]; by vm_compute in *.
  - pose proof (C8_exit_status (E:=otherEnv) 0%nat ["-bash=/bin/sh"])
      as [Hone _].
    apply Hone. left. by eexists.
Defined.

(** The same shells in two environments that differ in everything else. *)
Lemma C9_witness :
  matchBooleans <$>
    (compareOutput (E:=demoEnv) demoTester 0%nat demoSuite).1 !! "exit 3"
  = matchBooleans <$>
      (compareOutput (E:=otherEnv) demoTester 7%nat demoSuite).1 !! "exit 3".
Proof.
  set (reference c := (runCommand (E:=demoEnv) 0%nat "/bin/bash" c).1).
  set (implementation c :=
         (runCommand (E:=demoEnv) 0%nat "./minishell" c).1).
  assert (forall (E : Env nat), E = demoEnv \/ E = otherEnv ->
          forall (os : nat) tc, tc ∈ demoSuite ->
            (runCommand (E:=E) os "/bin/bash" (Command tc)).1
            = reference (Command tc)
            /\ (runCommand (E:=E) os "./minishell" (Command tc)).1
               = implementation (Command tc)) as Hshell.
  { intros E [-> | ->] os tc _; unfold reference, implementation;
      rewrite !runCommand_unfold; split; reflexivity. }
  apply (proj2 (C9_determinism demoEnv otherEnv demoTester demoSuite
                  reference implementation
                  (fun os tc Hin => proj1 (Hshell _ (or_introl eq_refl) os tc Hin))
                  (fun os tc Hin => proj2 (Hshell _ (or_introl eq_refl) os tc Hin))
                  (fun os tc Hin => proj1 (Hshell _ (or_intror eq_refl) os tc Hin))
                  (fun os tc Hin => proj2 (Hshell _ (or_intror eq_refl) os tc Hin)))).
Defined.

(** A wait that fails after the shell has printed its greeting. *)
Lemma C10_witness :
  (runCommand (E:=unawaitedEnv) 0%nat "./minishell" "echo hello").1
  = (hello, EmptyString, 0).
Proof.
  exact (proj1 (C10_wait_error_exit_code (E:=unawaitedEnv) 0%nat
                  "./minishell" "echo hello" "wait: no child processes"
                  (conj eq_refl (conj eq_refl eq_refl)) eq_refl)).
Defined.

(** * Further properties of the program *)

(** ** Trimming *)

Lemma cutPrefix_Some p : forall l r, cutPrefix p l = Some r -> l = p ++ r.
Proof.
  induction p as [|a p IH]; intros [|b l] r H; simpl in *; simplify_eq;
    try done.
  destruct (Ascii.eqb_spec a b) as [->|]; [|done]. by rewrite (IH _ _ H).
Qed.

Lemma cutPrefix_app p : forall l k r,
  cutPrefix p l = Some r -> cutPrefix p (l ++ k) = Some (r ++ k).
Proof.
  induction p as [|a p IH]; intros [|b l] k r H; simpl in *; simplify_eq;
    try done.
  destruct (Ascii.eqb a b); [by apply IH|done].
Qed.

Lemma cutSpace_Some table l r :
  cutSpace table l = Some r -> exists p, l = p ++ r.
Proof.
  induction table as [|p table IH]; simpl; [done|].
  destruct (cutPrefix p l) as [r'|] eqn:Hcut; [|done].
  intros [= ->]. exists p. by apply cutPrefix_Some.
Qed.

(** A string that begins with white space still does when it is
    extended. *)
Lemma cutSpace_app_Some table l k :
  is_Some (cutSpace table l) -> is_Some (cutSpace table (l ++ k)).
Proof.
  induction table as [|p table IH]; simpl; [done|].
  destruct (cutPrefix p l) as [r|] eqn:Hcut.
  - by rewrite (cutPrefix_app _ _ k _ Hcut).
  - intros H. destruct (cutPrefix p (l ++ k)); [done|by apply IH].
Qed.

Lemma cutSpace_nil table :
  Forall (fun p => p <> []) table -> cutSpace table [] = None.
Proof. induction 1 as [|[|a p] table Hp _ IH]; simpl; done. Qed.

(** With enough fuel [trimFront] stops at a string that begins with no
    white space. *)
Lemma trimFront_stuck table n : forall l,
  Forall (fun p => p <> []) table -> (length l <= n)%nat ->
  cutSpace table (trimFront table n l) = None.
Proof.
  induction n as [|n IH]; intros l Htable Hlen.
  - destruct l; [|simpl in Hlen; lia]. by apply cutSpace_nil.
  - simpl. destruct (cutSpace table l) as [r|] eqn:Hcut; [|done].
    apply IH; [done|]. apply cutSpace_shorter in Hcut; [lia|done].
Qed.

Lemma trimFront_fix table n l :
  cutSpace table l = None -> trimFront table n l = l.
Proof. intros H. destruct n; [done|]. simpl. by rewrite H. Qed.

Lemma trimFront_suffix table n : forall l,
  exists k, l = k ++ trimFront table n l.
Proof.
  induction n as [|n IH]; intros l; [by exists []|]. simpl.
  destruct (cutSpace table l) as [r|] eqn:Hcut; [|by exists []].
  destruct (cutSpace_Some _ _ _ Hcut) as [p ->].
  destruct (IH r) as [k Hk]. exists (p ++ k).
  by rewrite <- app_assoc, <- Hk.
Qed.

Lemma spaceBack_nonempty : Forall (fun p => p <> []) spaceBack.
Proof. repeat constructor; done. Qed.

Lemma TrimLeft_stuck l : cutSpace spaceFront (TrimLeft l) = None.
Proof. apply trimFront_stuck; [apply spaceFront_nonempty|done]. Qed.

(** [TrimRight] keeps a prefix, one whose reverse begins with no white
    space. *)
Lemma TrimRight_prefix l : exists k, l = TrimRight l ++ k.
Proof.
  unfold TrimRight.
  destruct (trimFront_suffix spaceBack (length l) (rev l)) as [k Hk].
  exists (rev k). rewrite <- rev_app_distr, <- Hk. by rewrite rev_involutive.
Qed.

Lemma TrimRight_stuck l : cutSpace spaceBack (rev (TrimRight l)) = None.
Proof.
  unfold TrimRight. rewrite rev_involutive.
  apply trimFront_stuck; [apply spaceBack_nonempty|].
  by rewrite length_rev.
Qed.

(** The trimmed list begins and ends with no white space, so that trimming
    it again changes nothing. *)
Lemma TrimRight_TrimLeft_fixed l :
  let b := TrimRight (TrimLeft l) in TrimLeft b = b /\ TrimRight b = b.
Proof.
  intros b. split.
  - apply trimFront_fix.
    destruct (cutSpace spaceFront b) as [r|] eqn:Hb; [|done].
    destruct (TrimRight_prefix (TrimLeft l)) as [k Hk]. fold b in Hk.
    pose proof (cutSpace_app_Some spaceFront b k) as Hsome.
    rewrite Hb, <- Hk, TrimLeft_stuck in Hsome.
    by destruct Hsome.
  - unfold TrimRight at 1.
    rewrite trimFront_fix by apply TrimRight_stuck.
    apply rev_involutive.
Qed.

Lemma TrimSpace_idempotent s : TrimSpace (TrimSpace s) = TrimSpace s.
Proof.
  unfold TrimSpace. rewrite list_ascii_of_string_of_list_ascii.
  destruct (TrimRight_TrimLeft_fixed (list_ascii_of_string s)) as [-> ->].
  done.
Qed.

Section MoreFacts.
Context {OS : Type} {E : Env OS}.

Lemma runCommandLog_unfold os shellPath command :
  (runCommandLog os shellPath command).1
  = runCommandOn (exec_Command os shellPath (stdinData command)).1 command [].
Proof.
  unfold runCommandLog.
  by destruct (exec_Command os shellPath (stdinData command)).
Qed.

(** ** runCommand *)

(** X1. On the path where the output is captured, the standard output and
    the error output that [runCommand] returns begin and end with no white
    space: trimming them again changes nothing. *)
Theorem X1_runCommand_returns_trimmed os shellPath command :
  captures (exec_Command os shellPath (stdinData command)).1 ->
  let res := (runCommand os shellPath command).1 in
  TrimSpace res.1.1 = res.1.1 /\ TrimSpace res.1.2 = res.1.2.
Proof.
  intros (Hp & Hs & Hw) res. unfold res.
  rewrite runCommand_unfold. simpl.
  rewrite runCommandOn_paths, Hp, Hs, Hw. simpl.
  split; apply TrimSpace_idempotent.
Qed.

(** X2. A test case whose expected output is stated with white space at
    either end (a final line feed, say) never has its expected-output
    comparison true, whatever the shells do: the expectation is compared as
    it is written with an output that has been trimmed, or with the empty
    output of a failed launch. *)
Theorem X2_untrimmed_expectation_never_matches st os tc :
  ExpectedOutput tc <> EmptyString ->
  TrimSpace (ExpectedOutput tc) <> ExpectedOutput tc ->
  ExpectedOutputMatch (runTest st os tc).1 = false.
Proof.
  intros Hset Hspace. rewrite runTest_result.
  destruct (runCommand os (bashPath st) (Command tc)) as [[[bo be] bc] os1].
  simpl. rewrite runCommand_unfold. simpl.
  set (sp := (exec_Command os1 (minishellPath st)
                (stdinData (Command tc))).1).
  assert (String.eqb (ExpectedOutput tc) EmptyString = false) as ->
    by by apply String.eqb_neq.
  assert (String.eqb EmptyString (ExpectedOutput tc) = false) as Hempty
    by (apply String.eqb_neq; congruence).
  rewrite runCommandOn_paths.
  destruct (sp_pipe sp), (sp_start sp), (sp_write sp); simpl; try done.
  apply String.eqb_neq. intros Heq. apply Hspace.
  rewrite <- Heq. apply TrimSpace_idempotent.
Qed.

(** X3. The calls [runCommand] makes on a subprocess follow one protocol.
    What is written is the command, a line feed, [exit] and a line feed; the
    subprocess is started only once its input pipe is made, and written only
    once it is started; its exit is awaited only after the write has
    succeeded and the input has been closed, and then the five calls are
    all that was done; the input is never closed without the exit being
    awaited. *)
Theorem X3_runCommand_protocol os shellPath command :
  let log := (runCommandLog os shellPath command).1.2 in
  (forall data ok, EvWrite data ok ∈ log ->
     data = command +:+ LF +:+ "exit" +:+ LF)
  /\ (forall ok, EvStart ok ∈ log -> EvStdinPipe true ∈ log)
  /\ (forall data ok, EvWrite data ok ∈ log -> EvStart true ∈ log)
  /\ (EvWait ∈ log ->
      log = [EvStdinPipe true; EvStart true;
             EvWrite (stdinData command) true; EvClose; EvWait])
  /\ (EvClose ∈ log -> EvWait ∈ log).
Proof.
  intros log. unfold log. rewrite runCommandLog_unfold, runCommandOn_paths.
  generalize (exec_Command os shellPath (stdinData command)).1. intros sp.
  destruct (sp_pipe sp), (sp_start sp), (sp_write sp); simpl;
    repeat split; intros; set_solver.
Qed.

(** X4. Unless the write to its input fails, a subprocess that
    [runCommand] has started has its input closed and then its exit
    awaited, as the last call, before [runCommand] returns. *)
Theorem X4_started_then_awaited os shellPath command :
  sp_write (exec_Command os shellPath (stdinData command)).1 = None ->
  let log := (runCommandLog os shellPath command).1.2 in
  started log -> closedAndAwaited log.
Proof.
  intros Hw log. unfold log. rewrite runCommandLog_unfold.
  by apply runCommandOn_awaits.
Qed.

(** X5. When the shell takes its input and is then killed by a signal,
    [runCommand] returns what it printed, trimmed, with the exit code -1. *)
Theorem X5_signalled_shell os shellPath command sig copyErr :
  let sp := (exec_Command os shellPath (stdinData command)).1 in
  captures sp ->
  sp_wait sp = Reaped (Signaled sig) copyErr ->
  (runCommand os shellPath command).1
  = (TrimSpace (sp_stdout sp), TrimSpace (sp_stderr sp), -1).
Proof.
  intros sp (Hp & Hs & Hw) Hwait.
  rewrite runCommand_unfold. simpl. fold sp.
  by rewrite runCommandOn_paths, Hp, Hs, Hw, Hwait.
Qed.

End MoreFacts.

Lemma X1_witness :
  (runCommand (E:=demoEnv) 0%nat "./minishell" "echo hello").1.1.1 = hello
  /\ TrimSpace hello = hello.
Proof.
  split; [vm_compute; reflexivity|].
  exact (proj1 (X1_runCommand_returns_trimmed (E:=demoEnv) 0%nat
                  "./minishell" "echo hello"
                  (conj eq_refl (conj eq_refl eq_refl)))).
Defined.

Lemma X2_witness :
  OutputMatch (runTest (E:=demoEnv) demoTester 0%nat expectingCase).1 = true
  /\ ExpectedOutputMatch
       (runTest (E:=demoEnv) demoTester 0%nat expectingCase).1 = false.
Proof.
  split; [vm_compute; reflexivity|].
  apply (X2_untrimmed_expectation_never_matches (E:=demoEnv)).
  - by vm_compute.
  - by vm_compute.
Defined.

Lemma X4_witness :
  closedAndAwaited
    (runCommandLog (E:=demoEnv) 0%nat "/bin/bash" "exit 3").1.2.
Proof.
  apply (X4_started_then_awaited (E:=demoEnv) 0%nat "/bin/bash" "exit 3").
  - reflexivity.
  - unfold started. apply (bool_decide_unpack _). vm_compute. exact I.
Defined.

Lemma X5_witness :
  (runCommand (E:=crashedEnv) 0%nat "./minishell" "echo hello").1
  = (hello, EmptyString, -1).
Proof.
  exact (X5_signalled_shell (E:=crashedEnv) 0%nat "./minishell" "echo hello"
           11 None (conj eq_refl (conj eq_refl eq_refl)) eq_refl).
Defined.

Section MoreReportFacts.
Context {OS : Type} {E : Env OS}.

(** ** generateDiff *)

Lemma mismatch_passed r : mismatch r = negb (passed r).
Proof.
  unfold mismatch, passed.
  by destruct (OutputMatch r), (ErrorMatch r), (ReturnCodeMatch r).
Qed.

Lemma generateDiff_omap st os (results : gmap string TestResult) :
  generateDiff st os results = omap diffOf results.
Proof.
  apply map_eq. intros cmd. by rewrite generateDiff_lookup, lookup_omap.
Qed.

Lemma passingEntries_insert (m : gmap string TestResult) cmd r :
  m !! cmd = None ->
  passingEntries (<[cmd := r]> m)
  = if passed r then S (passingEntries m) else passingEntries m.
Proof.
  intros Hnone. unfold passingEntries.
  rewrite map_to_list_insert by done.
  destruct (passed r) eqn:Hr.
  - by rewrite filter_cons_True.
  - rewrite filter_cons_False; [done|]. simpl. by rewrite Hr.
Qed.

Lemma size_omap_diffOf (m : gmap string TestResult) :
  (size (omap diffOf m) + passingEntries m)%nat = size m.
Proof.
  induction m as [|cmd r m Hnone IH] using map_ind.
  - by rewrite omap_empty, map_size_empty.
  - rewrite passingEntries_insert, map_size_insert_None by done.
    assert (omap diffOf m !! cmd = None) as Hd by by rewrite lookup_omap, Hnone.
    rewrite omap_insert. unfold diffOf at 1. rewrite mismatch_passed.
    destruct (passed r); simpl.
    + rewrite delete_id by done. lia.
    + rewrite map_size_insert_None by done. lia.
Qed.

(** X6. Whatever the order in which the result map is visited, the
    differences map has an entry for a command exactly when the result of
    that command has a mismatch of output, error or return code, and the
    entry is the diff of the two standard outputs, of them only. *)
Theorem X6_generateDiff_entries st os (results : gmap string TestResult)
    cmd d :
  generateDiff st os results !! cmd = Some d
  <-> exists r, results !! cmd = Some r
        /\ (OutputMatch r = false \/ ErrorMatch r = false
            \/ ReturnCodeMatch r = false)
        /\ d = diff_PrettyText (BashOutput r) (MinishellOutput r).
Proof.
  rewrite generateDiff_lookup. unfold diffOf, mismatch. split.
  - destruct (results !! cmd) as [r|]; [|done]. simpl.
    destruct (OutputMatch r) eqn:Ho, (ErrorMatch r) eqn:He,
      (ReturnCodeMatch r) eqn:Hc; simpl; intros [= <-]; exists r;
      rewrite ?Ho, ?He, ?Hc; naive_solver.
  - intros (r & -> & Hmis & ->). simpl.
    destruct Hmis as [-> | [-> | ->]]; simpl; by rewrite ?orb_true_r.
Qed.

(** X7. The entries of the differences map are as many as the results
    that do not pass: with the passing entries they make up the result
    map. *)
Theorem X7_differences_count st os (results : gmap string TestResult) :
  (size (generateDiff st os results) + passingEntries results)%nat
  = size results.
Proof. rewrite generateDiff_omap. apply size_omap_diffOf. Qed.

(** ** The report of main *)

(** What [main] prints once the tests have run: the report, and the line
    on the saved file when the report was written. *)
Lemma main_stdout os args (s : Session OS) :
  session (main os args) = Some s ->
  exists fl, flag_Parse args = Parsed fl
    /\ (stdout (main os args) = printReport s
        \/ stdout (main os args) = printReport s ++ [PSaved (f_output fl)]).
Proof.
  unfold main. destruct (flag_Parse args) as [fl| |]; [|done..].
  destruct (loadTestCases os (f_tests fl)) as [tcs|e]; [|done].
  destruct (NewShellTester os (f_bash fl) (f_minishell fl)) as [tester|e];
    [|done].
  intros Hs. exists fl. split; [done|].
  destruct (String.eqb (f_output fl) EmptyString);
    [left; by simplify_eq/=|].
  destruct (json_MarshalIndent _); [|left; by simplify_eq/=].
  destruct (os_WriteFile _ _ _) as [[e|] os2];
    [left|right]; by simplify_eq/=.
Qed.

Lemma session_differences os args (s : Session OS) :
  session (main os args) = Some s ->
  exists st, differences s = generateDiff st (after s) (results s).
Proof.
  intros (fl & tcs & tester & _ & _ & _ & -> & _)%main_session.
  exists tester. apply runTests_differences.
Qed.

Lemma statusLines_app out1 out2 :
  statusLines (out1 ++ out2) = statusLines out1 ++ statusLines out2.
Proof. apply omap_app. Qed.

Lemma statusLines_results (l : list (string * TestResult)) :
  statusLines
    (flat_map (fun '(cmd, result) =>
                 [PTest (r_Description result); PCommand cmd;
                  PStatus (status result)]) l)
  = (fun kv => status kv.2) <$> l.
Proof.
  induction l as [|[cmd r] l IH]; [done|].
  rewrite fmap_cons. simpl. rewrite <- IH. done.
Qed.

Lemma statusLines_differences (f : string -> string)
    (l : list (string * string)) :
  statusLines
    (flat_map (fun '(cmd, diff) =>
                 [PTest (f cmd); PCommand cmd; PDifferences diff]) l)
  = [].
Proof. induction l as [|[cmd d] l IH]; [done|]. simpl. exact IH. Qed.

Lemma statusLines_printReport (s : Session OS) :
  statusLines (printReport s)
  = (fun kv => status kv.2) <$> rangeOrder 2 (after s) (results s).
Proof.
  unfold printReport.
  rewrite (statusLines_app [_; _]), statusLines_app, statusLines_results.
  destruct (0 <? len (differences s)).
  - rewrite (statusLines_app [_; _]).
    rewrite (statusLines_differences
               (fun cmd => r_Description
                             (default zeroResult (results s !! cmd)))).
    simpl. by rewrite app_nil_r.
  - simpl. by rewrite app_nil_r.
Qed.

(** X8. [main] prints one status line for every entry of the result map
    and no other: the status lines are, in some order, the statuses of the
    entries, and the lines that say PASS are as many as the passing
    entries. *)
Theorem X8_status_lines os args (s : Session OS) :
  session (main os args) = Some s ->
  statusLines (stdout (main os args))
    ≡ₚ (fun kv => status kv.2) <$> map_to_list (results s)
  /\ length (filter (fun line => line = "PASS")
               (statusLines (stdout (main os args))))
     = passingEntries (results s).
Proof.
  intros Hs. destruct (main_stdout _ _ _ Hs) as (fl & _ & Hout).
  assert (statusLines (stdout (main os args))
          = (fun kv => status kv.2) <$> rangeOrder 2 (after s) (results s))
    as ->.
  { destruct Hout as [-> | ->]; [apply statusLines_printReport|].
    rewrite statusLines_app, statusLines_printReport. simpl.
    by rewrite app_nil_r. }
  rewrite (rangeOrder_perm _ 2%nat). split; [done|].
  unfold passingEntries. generalize (map_to_list (results s)). intros l.
  induction l as [|[cmd r] l IH]; [done|]. rewrite fmap_cons. simpl.
  unfold status at 1. rewrite mismatch_passed.
  destruct (passed r) eqn:Hr; simpl.
  - rewrite !filter_cons_True by done. simpl. by rewrite IH.
  - rewrite !filter_cons_False; [done| |done]. simpl. by rewrite Hr.
Qed.

(** X9. Every block of the detailed differences that [main] prints for an
    entry of the differences map carries the description of the result of
    that command, a result that is in the map and that is reported FAIL:
    the lookup of the result never falls on the zero value. *)
Theorem X9_difference_block os args (s : Session OS) cmd d :
  session (main os args) = Some s ->
  differences s !! cmd = Some d ->
  exists r, results s !! cmd = Some r
    /\ status r = "FAIL"
    /\ printedBlock
         [PTest (r_Description r); PCommand cmd; PDifferences d]
         (stdout (main os args)).
Proof.
  intros Hs Hd.
  destruct (session_differences _ _ _ Hs) as [st Hdiff].
  pose proof Hd as Hd'. rewrite Hdiff, generateDiff_lookup in Hd'.
  destruct (results s !! cmd) as [r|] eqn:Hr; [|done]. simpl in Hd'.
  exists r. split; [done|]. unfold diffOf in Hd'. unfold status.
  destruct (mismatch r); [|done]. split; [done|].
  destruct (main_session _ _ _ Hs) as (_ & _ & _ & _ & _ & _ & _ & tail & ->).
  apply printedBlock_app_r.
  pose proof (printReport_differences s cmd d Hd) as Hb.
  by rewrite Hr in Hb.
Qed.

(** X10. [main] prints the heading of the detailed differences exactly
    when some result has a mismatch; a run in which every test passes
    prints no such section. *)
Theorem X10_differences_heading os args (s : Session OS) :
  session (main os args) = Some s ->
  PDiffHeader ∈ stdout (main os args)
  <-> exists cmd r, results s !! cmd = Some r /\ status r = "FAIL".
Proof.
  intros Hs. destruct (session_differences _ _ _ Hs) as [st Hdiff].
  assert ((exists cmd r, results s !! cmd = Some r /\ status r = "FAIL")
          <-> differences s <> ∅) as ->.
  { split.
    - intros (cmd & r & Hr & Hfail) Hempty.
      assert (differences s !! cmd = None) as Hnone
        by by rewrite Hempty, lookup_empty.
      rewrite Hdiff, generateDiff_lookup, Hr in Hnone. simpl in Hnone.
      unfold diffOf, status in *. by destruct (mismatch r).
    - intros (cmd & d & Hd)%map_choose.
      pose proof Hd as Hd'. rewrite Hdiff, generateDiff_lookup in Hd'.
      destruct (results s !! cmd) as [r|] eqn:Hr; [|done]. simpl in Hd'.
      exists cmd, r. split; [done|]. unfold diffOf, status in *.
      by destruct (mismatch r). }
  assert (PDiffHeader ∈ printReport s <-> differences s <> ∅) as Hreport.
  { unfold printReport. rewrite !elem_of_app.
    destruct (0 <? len (differences s)) eqn:Hlen.
    - apply Z.ltb_lt in Hlen. split.
      + intros _ Hempty. rewrite Hempty in Hlen. unfold len in Hlen.
        rewrite map_size_empty in Hlen. lia.
      + intros _. right; right. set_solver.
    - apply Z.ltb_ge in Hlen. split.
      + intros [Hin|[Hin|Hin]]; [set_solver| |set_solver].
        apply list_elem_of_In, in_flat_map in Hin
          as [[cmd r] [_ Hin]]. apply list_elem_of_In in Hin. set_solver.
      + intros Hne. apply map_size_non_empty_iff in Hne.
        unfold len in Hlen. lia. }
  destruct (main_stdout _ _ _ Hs) as (fl & _ & [-> | ->]); [done|].
  rewrite elem_of_app, Hreport. set_solver.
Qed.

End MoreReportFacts.

Lemma X8_witness :
  statusLines (stdout (main (E:=demoEnv) 0%nat [])) ≡ₚ ["PASS"; "FAIL"].
Proof.
  etrans;
    [exact (proj1 (X8_status_lines (E:=demoEnv) 0%nat [] demoSession
                     eq_refl))|].
  vm_compute. apply Permutation_refl.
Defined.

Lemma X9_witness :
  printedBlock
    [PTest "exit status"; PCommand "exit 3"; PDifferences EmptyString]
    (stdout (main (E:=exit3Env) 0%nat [])).
Proof.
  destruct (X9_difference_block (E:=exit3Env) 0%nat [] exit3Session
              "exit 3" EmptyString) as (r & Hr & _ & Hblock);
    [vm_compute; reflexivity | vm_compute; reflexivity |].
  assert (r = exit3Result) as ->; [|exact Hblock].
  assert (results exit3Session !! "exit 3" = Some exit3Result) as Hres
    by (vm_compute; reflexivity).
  rewrite Hres in Hr. by injection Hr.
Defined.

Lemma X10_witness :
  PDiffHeader ∈ stdout (main (E:=exit3Env) 0%nat []).
Proof.
  apply (X10_differences_heading (E:=exit3Env) 0%nat [] exit3Session);
    [vm_compute; reflexivity|].
  exists "exit 3", exit3Result. split; vm_compute; reflexivity.
Defined.

Section MoreMainFacts.
Context {OS : Type} {E : Env OS}.

(** ** The fatal errors of main *)

(** X11. When the test file cannot be read or is not the JSON of a suite,
    [main] stops before anything else: it looks at no shell and launches
    none, prints nothing on standard output and one message on standard
    error, the error of the loading under its heading, and ends with
    status 1 in the state it started in. *)
Theorem X11_load_failure os args fl :
  flag_Parse args = Parsed fl ->
  (forall e, os_ReadFile os (f_tests fl) = Err e ->
     main os args
     = exit 1 []
         ["Error loading test cases: error reading file: " +:+ e +:+ LF]
         None os)
  /\ (forall data e,
        os_ReadFile os (f_tests fl) = Ok data ->
        json_Unmarshal data = Err e ->
        main os args
        = exit 1 []
            ["Error loading test cases: error parsing JSON: " +:+ e +:+ LF]
            None os).
Proof.
  intros Hfl. unfold main, loadTestCases. rewrite Hfl. split.
  - by intros e ->.
  - by intros data e -> ->.
Qed.

(** X12. When the suite is loaded and a shell executable does not exist,
    [main] launches nothing: it prints nothing on standard output, names
    the missing executable on standard error (bash when both are missing)
    and ends with status 1 in the state it started in. *)
Theorem X12_missing_shell os args fl testCases :
  flag_Parse args = Parsed fl ->
  loadTestCases os (f_tests fl) = Ok testCases ->
  (os_Stat os (f_bash fl) = StatNotExist ->
   main os args
   = exit 1 []
       ["Error: bash executable not found at " +:+ f_bash fl +:+ LF]
       None os)
  /\ (os_Stat os (f_bash fl) <> StatNotExist ->
      os_Stat os (f_minishell fl) = StatNotExist ->
      main os args
      = exit 1 []
          ["Error: minishell executable not found at "
           +:+ f_minishell fl +:+ LF]
          None os).
Proof.
  intros Hfl Hload. unfold main, NewShellTester. rewrite Hfl, Hload. split.
  - by intros ->.
  - intros Hbash ->. by destruct (os_Stat os (f_bash fl)).
Qed.

(** X13. Only an executable that does not exist stops [main]: when the
    examination of a shell path fails for another reason, or succeeds, the
    tests are run with the two paths as they were given. *)
Theorem X13_tests_run_unless_missing os args fl testCases :
  flag_Parse args = Parsed fl ->
  loadTestCases os (f_tests fl) = Ok testCases ->
  os_Stat os (f_bash fl) <> StatNotExist ->
  os_Stat os (f_minishell fl) <> StatNotExist ->
  NewShellTester os (f_bash fl) (f_minishell fl)
  = Ok {| bashPath := f_bash fl; minishellPath := f_minishell fl |}
  /\ session (main os args)
     = Some (runTests {| bashPath := f_bash fl;
                         minishellPath := f_minishell fl |} os testCases).
Proof.
  intros Hfl Hload Hbash Hmini.
  destruct (NewShellTester_cases os (f_bash fl) (f_minishell fl))
    as [[[H|H] _]|[_ Hnew]]; [done..|].
  split; [done|]. unfold main. rewrite Hfl, Hload, Hnew.
  destruct (String.eqb (f_output fl) EmptyString); [done|].
  destruct (json_MarshalIndent _); [|done].
  by destruct (os_WriteFile _ _ _) as [[e|] os2].
Qed.

Lemma rangeOrder_empty {A} site os :
  rangeOrder site os (∅ : gmap string A) = [].
Proof.
  apply Permutation_nil_r.
  by rewrite (rangeOrder_perm _ site), map_to_list_empty.
Qed.

(** X14. On an empty suite [main] launches nothing and, when no report is
    asked for, prints the summary line with 0 out of 0 and the rule, no
    status and no difference, and ends with status 0. *)
Theorem X14_empty_suite os args fl tester :
  flag_Parse args = Parsed fl ->
  loadTestCases os (f_tests fl) = Ok [] ->
  NewShellTester os (f_bash fl) (f_minishell fl) = Ok tester ->
  f_output fl = EmptyString ->
  main os args
  = exit 0 [PSummary 0 0; PRule] []
      (Some {| results := ∅; differences := ∅; totalTests := 0;
               passedTests := 0; after := os |})
      os.
Proof.
  intros Hfl Hload Hnew Hout. unfold main.
  rewrite Hfl, Hload, Hnew, Hout. simpl.
  assert (runTests tester os []
          = {| results := ∅; differences := ∅; totalTests := 0;
               passedTests := 0; after := os |}) as ->.
  { unfold runTests, compareOutput, generateDiff. simpl.
    by rewrite !rangeOrder_empty. }
  unfold printReport. simpl. by rewrite rangeOrder_empty.
Qed.

(** ** The end of main *)

Lemma printReport_no_saved (s : Session OS) path :
  PSaved path ∉ printReport s.
Proof.
  unfold printReport. rewrite !elem_of_app. intros [Hin|[Hin|Hin]].
  - set_solver.
  - apply list_elem_of_In, in_flat_map in Hin as [[cmd r] [_ Hin]].
    apply list_elem_of_In in Hin. set_solver.
  - destruct (0 <? len (differences s)); [|set_solver].
    apply elem_of_app in Hin as [Hin|Hin]; [set_solver|].
    apply list_elem_of_In, in_flat_map in Hin as [[cmd d] [_ Hin]].
    apply list_elem_of_In in Hin. set_solver.
Qed.

(** How [main] ends once the tests have run, by what becomes of the
    report. *)
Lemma main_finish os args fl testCases tester :
  flag_Parse args = Parsed fl ->
  loadTestCases os (f_tests fl) = Ok testCases ->
  NewShellTester os (f_bash fl) (f_minishell fl) = Ok tester ->
  let s := runTests tester os testCases in
  let written :=
    f_output fl <> EmptyString
    /\ exists jsonData,
         json_MarshalIndent (outputData s) = Ok jsonData
         /\ (os_WriteFile (after s) (f_output fl) jsonData).1 = None in
  (written ->
   exitStatus (main os args) = 0
   /\ stdout (main os args) = printReport s ++ [PSaved (f_output fl)])
  /\ (~ written -> stdout (main os args) = printReport s).
Proof.
  intros Hfl Hload Hnew s written. unfold written, main.
  rewrite Hfl, Hload, Hnew. fold s.
  destruct (String.eqb_spec (f_output fl) EmptyString) as [Hout|Hout].
  { split; [by intros [? _]|done]. }
  destruct (json_MarshalIndent (outputData s)) as [data|e].
  2:{ split; [by intros (_ & ? & ? & _)|done]. }
  destruct (os_WriteFile (after s) (f_output fl) data) as [[e|] os2]
    eqn:Hwrite; cbv [exit stdout exitStatus].
  - split; [|done]. intros (_ & data' & [= <-] & Hw).
    by rewrite Hwrite in Hw.
  - split; [done|]. intros Hno. destruct Hno. split; [done|].
    exists data. by rewrite Hwrite.
Qed.

(** X15. [main] prints that the results were saved to a path exactly when
    its flags parse, the suite loads, both shells are found, that path is
    the output path that was given, and the report is serialised and
    written to it without error.  When it prints the line, the line is the
    last one printed and the status is 0. *)
Theorem X15_saved_line os args path :
  (PSaved path ∈ stdout (main os args)
   <-> exists fl testCases tester jsonData,
         flag_Parse args = Parsed fl
         /\ loadTestCases os (f_tests fl) = Ok testCases
         /\ NewShellTester os (f_bash fl) (f_minishell fl) = Ok tester
         /\ path = f_output fl /\ path <> EmptyString
         /\ json_MarshalIndent (outputData (runTests tester os testCases))
            = Ok jsonData
         /\ (os_WriteFile (after (runTests tester os testCases)) path
               jsonData).1 = None)
  /\ (PSaved path ∈ stdout (main os args) ->
      exitStatus (main os args) = 0
      /\ last (stdout (main os args)) = Some (PSaved path)).
Proof.
  assert (forall fl testCases tester jsonData,
            flag_Parse args = Parsed fl ->
            loadTestCases os (f_tests fl) = Ok testCases ->
            NewShellTester os (f_bash fl) (f_minishell fl) = Ok tester ->
            path = f_output fl -> path <> EmptyString ->
            json_MarshalIndent (outputData (runTests tester os testCases))
            = Ok jsonData ->
            (os_WriteFile (after (runTests tester os testCases)) path
               jsonData).1 = None ->
            exitStatus (main os args) = 0
            /\ stdout (main os args)
               = printReport (runTests tester os testCases) ++ [PSaved path])
    as Hwritten.
  { intros fl tcs tester data Hfl Hload Hnew -> Hne Hjson Hwrite.
    apply (main_finish _ _ _ _ _ Hfl Hload Hnew). split; [done|].
    by exists data. }
  assert (PSaved path ∈ stdout (main os args) ->
          exists fl testCases tester jsonData,
            flag_Parse args = Parsed fl
            /\ loadTestCases os (f_tests fl) = Ok testCases
            /\ NewShellTester os (f_bash fl) (f_minishell fl) = Ok tester
            /\ path = f_output fl /\ path <> EmptyString
            /\ json_MarshalIndent (outputData (runTests tester os testCases))
               = Ok jsonData
            /\ (os_WriteFile (after (runTests tester os testCases)) path
                  jsonData).1 = None) as Hprinted.
  { intros Hin.
    destruct (flag_Parse args) as [fl| |] eqn:Hfl;
      [|unfold main in Hin; rewrite Hfl in Hin; set_solver..].
    destruct (loadTestCases os (f_tests fl)) as [tcs|e] eqn:Hload;
      [|unfold main in Hin; rewrite Hfl, Hload in Hin; set_solver].
    destruct (NewShellTester os (f_bash fl) (f_minishell fl))
      as [tester|e] eqn:Hnew;
      [|unfold main in Hin; rewrite Hfl, Hload, Hnew in Hin; set_solver].
    destruct (main_finish _ _ _ _ _ Hfl Hload Hnew) as [Hyes Hno].
    destruct (decide (f_output fl = EmptyString)) as [Hout|Hout].
    { rewrite Hno in Hin by (by intros [? _]).
      by apply printReport_no_saved in Hin. }
    destruct (json_MarshalIndent (outputData (runTests tester os tcs)))
      as [data|e] eqn:Hjson.
    2:{ rewrite Hno in Hin by (by intros (_ & ? & ? & _)).
        by apply printReport_no_saved in Hin. }
    destruct ((os_WriteFile (after (runTests tester os tcs)) (f_output fl)
                 data).1) as [e|] eqn:Hwrite.
    { rewrite Hno in Hin.
      - by apply printReport_no_saved in Hin.
      - intros (_ & data' & [= <-] & Hw). by rewrite Hwrite in Hw. }
    destruct Hyes as [_ Hout']; [split; [done|]; by exists data|].
    rewrite Hout' in Hin.
    apply elem_of_app in Hin as [Hin|Hin%list_elem_of_singleton];
      [by apply printReport_no_saved in Hin|].
    injection Hin as ->. by exists fl, tcs, tester, data. }
  split; [split; [done|]|].
  - intros (fl & tcs & tester & data & Hfl & Hload & Hnew & Hp & Hne & Hj & Hw).
    destruct (Hwritten _ _ _ _ Hfl Hload Hnew Hp Hne Hj Hw) as [_ ->].
    set_solver.
  - intros (fl & tcs & tester & data & Hfl & Hload & Hnew & Hp & Hne & Hj & Hw)
      %Hprinted.
    destruct (Hwritten _ _ _ _ Hfl Hload Hnew Hp Hne Hj Hw) as [-> ->].
    by rewrite last_snoc.
Qed.

(** X16. Once the flags are parsed, [main] writes on standard error
    exactly when it ends with status 1, and then one message; a run that
    ends with status 0 writes nothing there. *)
Theorem X16_stderr os args fl :
  flag_Parse args = Parsed fl ->
  (exitStatus (main os args) = 0 /\ stderr (main os args) = [])
  \/ (exitStatus (main os args) = 1
      /\ exists msg, stderr (main os args) = [msg]).
Proof.
  intros Hfl. unfold main. rewrite Hfl.
  destruct (loadTestCases os (f_tests fl)); [|right; by eauto].
  destruct (NewShellTester os (f_bash fl) (f_minishell fl));
    [|right; by eauto].
  destruct (String.eqb (f_output fl) EmptyString); [by left|].
  destruct (json_MarshalIndent _); [|right; by eauto].
  destruct (os_WriteFile _ _ _) as [[e|] os2]; [right; by eauto|by left].
Qed.

(** X19. The failed count of the report that [main] serialises is the
    number of entries of the differences map it serialises with it, and
    the two maps of the report are the ones it printed.  (The result map
    has fewer than 2^63 entries.) *)
Theorem X19_report_failed_count os args (s : Session OS) :
  session (main os args) = Some s ->
  len (results s) < 2 ^ 63 ->
  FailedTests (o_Summary (outputData s)) = len (differences s)
  /\ o_Results (outputData s) = results s
  /\ o_Differences (outputData s) = differences s.
Proof.
  intros Hs Hlen. split; [|done].
  destruct (main_session _ _ _ Hs)
    as (fl & tcs & tester & _ & _ & _ & Hrun & _).
  pose proof (runTests_counters tester os tcs) as Hc.
  pose proof (runTests_differences tester os tcs) as Hd.
  rewrite <- Hrun in Hc, Hd. simpl in Hc, Hd. destruct Hc as [Htot Hpass].
  rewrite countPassed_range in Hpass by done.
  pose proof (size_omap_diffOf (results s)) as Hsize.
  rewrite <- (generateDiff_omap tester (after s)), <- Hd in Hsize.
  simpl. rewrite Htot, Hpass. unfold int_sub, len in *.
  rewrite wrap64_small by lia. lia.
Qed.

End MoreMainFacts.

Section MoreCompareFacts.
Context {OS : Type} {E : Env OS}.

(** ** compareOutput *)

(** X17. Every entry of the result map comes from a test case of the
    suite with the command of the entry: it has its description, its three
    comparisons between the shells are those of the outputs, errors and
    codes it stores, and its three comparisons with the expectations are
    those of what it stores for the shell under test with what the test
    case expects, an expectation left empty or zero holding by itself. *)
Theorem X17_result_provenance st os testCases cmd r :
  (compareOutput st os testCases).1 !! cmd = Some r ->
  exists tc, tc ∈ testCases /\ Command tc = cmd
    /\ r_Description r = Description tc
    /\ OutputMatch r = String.eqb (BashOutput r) (MinishellOutput r)
    /\ ErrorMatch r = String.eqb (BashError r) (MinishellError r)
    /\ ReturnCodeMatch r = (BashReturnCode r =? MinishellReturnCode r)
    /\ ExpectedOutputMatch r
       = (String.eqb (ExpectedOutput tc) EmptyString
          || String.eqb (MinishellOutput r) (ExpectedOutput tc))
    /\ ExpectedErrorMatch r
       = (String.eqb (ExpectedError tc) EmptyString
          || String.eqb (MinishellError r) (ExpectedError tc))
    /\ ExpectedCodeMatch r
       = ((ExpectedCode tc =? 0)
          || (MinishellReturnCode r =? ExpectedCode tc)).
Proof.
  intros (tc & os' & Hin & Hcmd & ->)%compareOutput_entry.
  exists tc. rewrite runTest_result.
  destruct (runCommand os' (bashPath st) (Command tc)) as [[[bo be] bc] os1].
  simpl. destruct (runCommand os1 _ _) as [[[mo me] mc] os2]. simpl.
  done.
Qed.

Lemma remove_dups_length {A} `{EqDecision A} (l : list A) :
  (length (remove_dups l) <= length l)%nat
  /\ (length (remove_dups l) = length l <-> NoDup l).
Proof.
  induction l as [|x l [IHle IHeq]]; simpl.
  - split; [done|]. split; [constructor|done].
  - rewrite NoDup_cons. destruct (decide_rel elem_of x l); simpl.
    + split; [lia|]. split; [lia|]. by intros [? _].
    + split; [lia|]. rewrite <- IHeq. split; [intros ?; split; [done|lia]|].
      intros [_ ?]. lia.
Qed.

Lemma compareOutput_size st os testCases :
  size (compareOutput st os testCases).1
  = length (remove_dups (Command <$> testCases)).
Proof.
  rewrite <- (size_dom (D:=gset string)), compareOutput_dom.
  rewrite <- (size_list_to_set (C:=gset string) (remove_dups _))
    by apply NoDup_remove_dups.
  f_equal. apply set_eq. intros c.
  by rewrite !elem_of_list_to_set, elem_of_remove_dups.
Qed.

(** X18. The result map never has more entries than the suite has test
    cases, and it has as many exactly when no two test cases have the same
    command: with a repeated command the total of the summary is short of
    the number of tests that were run. *)
Theorem X18_total_and_suite st os testCases :
  (size (compareOutput st os testCases).1 <= length testCases)%nat
  /\ (size (compareOutput st os testCases).1 = length testCases
      <-> NoDup (Command <$> testCases)).
Proof.
  rewrite compareOutput_size.
  destruct (remove_dups_length (Command <$> testCases)) as [Hle Heq].
  rewrite length_fmap in Hle, Heq. done.
Qed.

(** X20. A command that no test case of the suite runs has no entry in
    the result map, and the test cases put after a suite leave the entries
    of the commands they do not run as the suite made them. *)
Theorem X20_untouched_entries st os testCases more cmd :
  cmd ∉ Command <$> more ->
  (compareOutput st os (testCases ++ more)).1 !! cmd
  = (compareOutput st os testCases).1 !! cmd
  /\ (compareOutput st os more).1 !! cmd = None.
Proof.
  intros Hcmd. split.
  - rewrite compareOutput_app. by apply compareLoop_lookup_other.
  - apply not_elem_of_dom. rewrite compareOutput_dom. set_solver.
Qed.

End MoreCompareFacts.

(** * The further properties in the scripted environments *)

Lemma X11_witness :
  stdout (main (E:=deniedEnv) 0%nat []) = []
  /\ stderr (main (E:=deniedEnv) 0%nat [])
     = ["Error loading test cases: error reading file: permission denied"
        +:+ LF].
Proof.
  rewrite (proj1 (X11_load_failure (E:=deniedEnv) 0%nat [] defaultFlags
                    eq_refl) "permission denied" eq_refl).
  split; reflexivity.
Defined.

Lemma X12_witness :
  main (E:=noBashEnv) 0%nat []
  = exit 1 [] ["Error: bash executable not found at /bin/bash" +:+ LF]
      None 0%nat.
Proof.
  exact (proj1 (X12_missing_shell (E:=noBashEnv) 0%nat [] defaultFlags
                  demoSuite eq_refl eq_refl) eq_refl).
Defined.

Lemma X13_witness :
  os_Stat (Env:=unexaminedEnv) 0%nat "/bin/bash"
  = StatFailed "permission denied"
  /\ is_Some (session (main (E:=unexaminedEnv) 0%nat [])).
Proof.
  split; [reflexivity|].
  destruct (X13_tests_run_unless_missing (E:=unexaminedEnv) 0%nat []
              defaultFlags demoSuite eq_refl eq_refl) as [_ ->];
    [discriminate | discriminate | by eexists].
Defined.

Lemma X14_witness :
  stdout (main (E:=emptyEnv) 0%nat []) = [PSummary 0 0; PRule]
  /\ exitStatus (main (E:=emptyEnv) 0%nat []) = 0.
Proof.
  rewrite (X14_empty_suite (E:=emptyEnv) 0%nat [] defaultFlags demoTester
             eq_refl eq_refl eq_refl eq_refl).
  split; reflexivity.
Defined.

Lemma X16_witness :
  exitStatus (main (E:=noBashEnv) 0%nat []) = 1
  /\ exists msg, stderr (main (E:=noBashEnv) 0%nat []) = [msg].
Proof.
  destruct (X16_stderr (E:=noBashEnv) 0%nat [] defaultFlags eq_refl)
    as [[Hzero _]|Hone]; [|exact Hone].
  vm_compute in Hzero. discriminate Hzero.
Defined.

Lemma X17_witness :
  exists tc, tc ∈ demoSuite /\ Command tc = "exit 3"
    /\ r_Description exit3Result = Description tc.
Proof.
  destruct (X17_result_provenance (E:=demoEnv) demoTester 0%nat demoSuite
              "exit 3" exit3Result) as (tc & Hin & Hcmd & Hdesc & _);
    [vm_compute; reflexivity|].
  by exists tc.
Defined.

Lemma X19_witness :
  FailedTests (o_Summary (outputData demoSession)) = 1
  /\ len (differences demoSession) = 1.
Proof.
  destruct (X19_report_failed_count (E:=demoEnv) 0%nat [] demoSession)
    as (Hfailed & _); [vm_compute; reflexivity | vm_compute; reflexivity |].
  split; [|rewrite <- Hfailed]; vm_compute; reflexivity.
Defined.

Lemma X20_witness :
  (compareOutput (E:=demoEnv) demoTester 0%nat
     ([tcase "echo hello" "greeting"] ++ [exit3Case])).1 !! "echo hello"
  = (compareOutput (E:=demoEnv) demoTester 0%nat
       [tcase "echo hello" "greeting"]).1 !! "echo hello".
Proof.
  apply (X20_untouched_entries (E:=demoEnv) demoTester 0%nat
           [tcase "echo hello" "greeting"] [exit3Case] "echo hello").
  apply (bool_decide_unpack _). vm_compute. exact I.
Defined.

Lemma X21_witness :
  OutputMatch
    (runTest (E:=newlineEnv) demoTester 0%nat
       (tcase "echo hello" "greeting")).1 = true.
Proof.
  apply (runTest_final_newline (E:=newlineEnv) demoTester 0%nat
           (tcase "echo hello" "greeting")).
  - repeat split; reflexivity.
  - repeat split; reflexivity.
  - reflexivity.
Defined.

Section LaunchFailures.
Context {OS : Type} {E : Env OS}.

Lemma runCommandOn_launchError sp command e :
  launchError sp = Some e ->
  (runCommandOn sp command []).1 = (EmptyString, e, 1).
Proof.
  unfold launchError. rewrite runCommandOn_paths.
  destruct (sp_pipe sp), (sp_start sp), (sp_write sp); naive_solver.
Qed.

(** X22. When neither shell can be launched for a test and the two
    launches fail with the same error text, the test is reported PASS: the
    two empty outputs, the two error texts and the two fallback codes are
    equal. *)
Theorem X22_equal_launch_failures_pass st os tc e :
  let bash := exec_Command os (bashPath st) (stdinData (Command tc)) in
  let mini := exec_Command bash.2 (minishellPath st) (stdinData (Command tc)) in
  launchError bash.1 = Some e -> launchError mini.1 = Some e ->
  status (runTest st os tc).1 = "PASS"
  /\ BashReturnCode (runTest st os tc).1 = 1
  /\ MinishellReturnCode (runTest st os tc).1 = 1.
Proof.
  intros bash mini Hb Hm.
  rewrite runTest_result, !runCommand_unfold. simpl. fold bash. fold mini.
  rewrite (runCommandOn_launchError _ _ _ Hb),
    (runCommandOn_launchError _ _ _ Hm).
  unfold status, mismatch. simpl. by rewrite String.eqb_refl.
Qed.

End LaunchFailures.

Lemma X22_witness :
  status (runTest (E:=brokenEnv) demoTester 0%nat exit3Case).1 = "PASS".
Proof.
  exact (proj1 (X22_equal_launch_failures_pass (E:=brokenEnv) demoTester
                  0%nat exit3Case "write |1: broken pipe" eq_refl eq_refl)).
Defined.

(** A report asked for and written: the line is printed, last. *)
Lemma X15_witness :
  PSaved "out.json"
    ∈ stdout (main (E:=demoEnv) 0%nat ["-output"; "out.json"])
  /\ exitStatus (main (E:=demoEnv) 0%nat ["-output"; "out.json"]) = 0.
Proof.
  assert (PSaved "out.json"
            ∈ stdout (main (E:=demoEnv) 0%nat ["-output"; "out.json"]))
    as Hin.
  { apply (proj1 (X15_saved_line (E:=demoEnv) 0%nat
                    ["-output"; "out.json"] "out.json")).
    exists {| f_bash := "/bin/bash"; f_minishell := "./minishell";
              f_tests := "test_cases.json"; f_output := "out.json" |},
      demoSuite, demoTester, "{}".
    repeat split; (reflexivity || discriminate). }
  split; [exact Hin|].
  exact (proj1 (proj2 (X15_saved_line (E:=demoEnv) 0%nat
                         ["-output"; "out.json"] "out.json") Hin)).
Defined.
